(** * gensim.similarities.levenshtein: Levenshtein distance, similarity and
      the term similarity index

    A shallow embedding of [src/gensim/similarities/levenshtein.py]
    ([levdist], [levsim] and [LevenshteinSimilarityIndex]) and the properties
    its specification states about them.

    Numbers.  Python's [float] is embedded as a real number ([R]): every
    operation is the exact one, so rounding and [OverflowError] are outside
    the model.  What Python does on top of the arithmetic is kept: a true
    division by zero raises [ZeroDivisionError], a failed [assert] raises
    [AssertionError], and [**] follows [float.__pow__] case by case (see
    [py_pow]).  All concrete inputs used below have values that binary
    floating point represents exactly, or are compared with a tolerance.
    Where the rounding itself decides what the source does, lines 101-105
    are evaluated in binary64 arithmetic as well (section Binary64). *)

From Stdlib Require Import Reals Lra Lia ZArith Arith Bool List.
From Stdlib Require Import Ascii String Permutation Sorted.
From Stdlib Require Import Floats.
Import ListNotations.

Open Scope R_scope.

(** ** Outcomes of a Python call *)

Inductive exn : Type :=
| AssertionError
| ZeroDivisionError
| TypeError.

Inductive outcome (A : Type) : Type :=
| Returns (a : A)
| Raises (e : exn).

Arguments Returns {A} a.
Arguments Raises {A} e.

Definition bind {A B : Type} (m : outcome A) (k : A -> outcome B) : outcome B :=
  match m with
  | Returns a => k a
  | Raises e => Raises e
  end.

Notation "x <- m ;; k" := (bind m (fun x => k))
  (at level 61, m at next level, right associativity).

(** A list comprehension whose body may raise: elements are evaluated left
    to right and the first exception ends the comprehension. *)
Fixpoint comprehension {A B : Type} (f : A -> outcome B) (l : list A)
  : outcome (list B) :=
  match l with
  | [] => Returns []
  | x :: l' =>
      y <- f x ;;
      ys <- comprehension f l' ;;
      Returns (y :: ys)
  end.

(** A list comprehension with a condition that may raise and may rename the
    element it keeps ([Some]) or drop it ([None]). *)
Fixpoint comprehension_if {A B : Type} (f : A -> outcome (option B))
  (l : list A) : outcome (list B) :=
  match l with
  | [] => Returns []
  | x :: l' =>
      y <- f x ;;
      ys <- comprehension_if f l' ;;
      Returns (match y with Some b => b :: ys | None => ys end)
  end.

(** ** Python numbers *)

(** The value of a float expression: a real, or a complex number (what
    [**] gives for a negative base and a fractional exponent), whose value
    the model does not track. *)
Inductive number : Type :=
| Real (r : R)
| Complex.

(** [a / b] on floats. *)
Definition py_div (a b : R) : outcome R :=
  if Req_EM_T b 0 then Raises ZeroDivisionError else Returns (a / b).

(** [x ** y] on floats, after [float_pow] of CPython: anything to the power
    zero is one; zero to a negative power raises; zero to a positive power
    is zero; a negative base with a fractional exponent leaves the reals.
    The [OverflowError] of a result too large for a float has no
    counterpart over the reals. *)
Definition py_pow (x y : R) : outcome number :=
  if Req_EM_T y 0 then Returns (Real 1)
  else if Req_EM_T x 0 then
    if Rlt_dec y 0 then Raises ZeroDivisionError else Returns (Real 0)
  else if Rlt_dec 0 x then Returns (Real (Rpower x y))
  else if Req_EM_T y (IZR (Int_part y))
       then Returns (Real (powerRZ x (Int_part y)))
       else Returns Complex.

(** [a * z] for a float [a]. *)
Definition py_mul (a : R) (z : number) : number :=
  match z with
  | Real r => Real (a * r)
  | Complex => Complex
  end.

(** ** Levenshtein.distance *)

(** [Levenshtein.distance] belongs to the python-Levenshtein package, which
    [levdist] imports; it is embedded by the textbook recurrence of the edit
    distance (insertion, deletion and substitution, each of cost one). *)
Fixpoint Levenshtein_distance (s t : string) {struct s} : nat :=
  match s with
  | EmptyString => String.length t
  | String a s' =>
      (fix row (t : string) : nat :=
         match t with
         | EmptyString => S (String.length s')
         | String b t' =>
             Nat.min (S (Levenshtein_distance s' t))
               (Nat.min (S (row t'))
                  (Levenshtein_distance s' t' + (if Ascii.eqb a b then 0 else 1)))
         end) t
  end.

(** The edit scripts between two strings and their costs: the reference
    notion the recurrence is checked against. *)
Inductive edit_script : string -> string -> nat -> Prop :=
| edit_done : edit_script EmptyString EmptyString 0
| edit_delete a s t n :
    edit_script s t n -> edit_script (String a s) t (S n)
| edit_insert b s t n :
    edit_script s t n -> edit_script s (String b t) (S n)
| edit_keep a s t n :
    edit_script s t n -> edit_script (String a s) (String a t) n
| edit_substitute a b s t n :
    edit_script s t n -> edit_script (String a s) (String b t) (S n).

(** [d] is the Levenshtein distance of [s] and [t]: the cost of a cheapest
    edit script. *)
Definition is_levenshtein_distance (s t : string) (d : nat) : Prop :=
  edit_script s t d /\ forall n, edit_script s t n -> (d <= n)%nat.

(** ** levdist *)

(** The [max_distance] argument: an [int] or a [float], [float("inf")]
    included. *)
Inductive distance_bound : Type :=
| Finite (r : R)
| Infinity.

(** [distance > max_distance] *)
Definition exceeds (distance : nat) (max_distance : distance_bound) : bool :=
  match max_distance with
  | Finite r => if Rlt_dec r (INR distance) then true else false
  | Infinity => false
  end.

Definition levdist (t1 t2 : string) (max_distance : distance_bound) : nat :=
  let distance := Levenshtein_distance t1 t2 in
  if exceeds distance max_distance
  then Nat.max (String.length t1) (String.length t2)
  else distance.

(** ** levsim *)

Definition default_alpha : R := 18 / 10.
Definition default_beta : R := 5.
Definition default_min_similarity : R := 0.

(** [float(max(min(min_similarity, 1.0), 0.0))] *)
Definition clamp_similarity (min_similarity : R) : R :=
  Rmax (Rmin min_similarity 1) 0.

(** Lines 101-102 of the source: the distance bound derived from the
    similarity threshold,
    [int(floor(max_lengths * (1 - (min_similarity / alpha) ** (1 / beta))))],
    with the exact product under the floor.  The source floors the rounded
    product, which can be one less ([float_max_distance] below), and its
    [**] raises [OverflowError] on a result too large for a float. *)
Definition max_distance_for_threshold (max_lengths : nat)
  (alpha beta min_similarity : R) : outcome Z :=
  let min_similarity := clamp_similarity min_similarity in
  q <- py_div min_similarity alpha ;;
  e <- py_div 1 beta ;;
  p <- py_pow q e ;;
  match p with
  | Real p => Returns (Int_part (INR max_lengths * (1 - p)))
  | Complex => Raises TypeError
  end.

Definition levsim (t1 t2 : string) (alpha beta min_similarity : R)
  (distance : option Z) : outcome number :=
  if Rle_dec 0 alpha then
    if Rle_dec 0 beta then
      let max_lengths := Nat.max (String.length t1) (String.length t2) in
      if (max_lengths =? 0)%nat then Returns (Real 1)
      else
        max_distance <-
          max_distance_for_threshold max_lengths alpha beta min_similarity ;;
        let distance :=
          match distance with
          | None => Z.of_nat (levdist t1 t2 (Finite (IZR max_distance)))
          | Some distance => distance
          end in
        ratio <- py_div (IZR distance * 1) (INR max_lengths) ;;
        power <- py_pow (1 - ratio) beta ;;
        Returns (py_mul alpha power)
    else Raises AssertionError
  else Raises AssertionError.

(** ** LevenshteinSimilarityIndex *)

(** Modelled from the spec: [Trie] of the pyffs package is not under src/.
    The trie stands for the set of vocabulary terms (spec 4.1: inserting a
    term twice leaves the tree unchanged); it is kept as the list of the
    distinct terms. *)
Record Trie : Type := { trie_terms : list string }.

Definition Trie_new (words : list string) : Trie :=
  {| trie_terms := nodup string_dec words |}.

(** Modelled from the spec: building the trie fills the alphabet it is
    given with the characters of the vocabulary terms (spec 3). *)
Definition Trie_alphabet (words : list string) : list ascii :=
  nodup ascii_dec (flat_map list_ascii_of_string words).

(** Modelled from the spec: [LevenshteinAutomaton] of the pyffs package is
    not under src/.  An automaton is built for a maximum distance, a query
    and an alphabet (spec 4.2); the record keeps the three. *)
Record LevenshteinAutomaton : Type := {
  automaton_max_distance : Z;
  automaton_query : string;
  automaton_alphabet : list ascii
}.

Record LevenshteinSimilarityIndex : Type := {
  dictionary : list string;
  alpha : R;
  beta : R;
  threshold : R;
  max_distance : Z;
  words : list string;
  alphabet : list ascii;
  trie : Trie
}.

(** [__init__]; a dictionary is given by the keys of its [token2id], in
    their order.  Writing the automaton files ([generate_automaton_to_file])
    has no effect on the index. *)
Definition LevenshteinSimilarityIndex_init (dictionary : list string)
  (alpha beta threshold : R) (max_distance : Z) : LevenshteinSimilarityIndex :=
  let words := dictionary in
  {| dictionary := dictionary;
     alpha := alpha;
     beta := beta;
     threshold := threshold;
     max_distance := max_distance;
     words := words;
     alphabet := Trie_alphabet words;
     trie := Trie_new words |}.

Definition default_threshold : R := 0.
Definition default_max_distance : Z := 2.
Definition default_topn : Z := 10.

(** [sorted(l, key=key)]: Python's sort is stable and ascending in the key.
    [insert_by_key x l] puts [x] in front of the first element whose key is
    not smaller, so an element stays in front of the later ones of the same
    key. *)
Fixpoint insert_by_key {A : Type} (key : A -> R) (x : A) (l : list A) : list A :=
  match l with
  | [] => [x]
  | y :: l' =>
      if Rle_dec (key x) (key y) then x :: y :: l'
      else y :: insert_by_key key x l'
  end.

Definition sorted {A : Type} (l : list A) (key : A -> R) : list A :=
  fold_right (insert_by_key key) [] l.

(** The slice [l[:n]] for an [int] [n]: a negative [n] counts from the end. *)
Definition slice_to {A : Type} (l : list A) (n : Z) : list A :=
  if (n <? 0)%Z
  then firstn (Z.to_nat (Z.of_nat (List.length l) + n)) l
  else firstn (Z.to_nat n) l.

Section MostSimilar.

(** [trie_automaton_intersection(automaton, trie, True)] of the pyffs
    package, which is not under src/: the (error, term) pairs it yields,
    in the order it yields them.  The index is verified for any such
    function. *)
Variable trie_automaton_intersection :
  LevenshteinAutomaton -> Trie -> list (Z * string).

(** Line 157: the automaton [most_similar] builds for a query. *)
Definition query_automaton (self : LevenshteinSimilarityIndex) (t1 : string)
  : LevenshteinAutomaton :=
  {| automaton_max_distance := max_distance self;
     automaton_query := t1;
     automaton_alphabet := alphabet self |}.

(** Lines 158-162: the scored matches, the query itself left out. *)
Definition similarities (self : LevenshteinSimilarityIndex) (t1 : string)
  : outcome (list (number * string)) :=
  let automaton := query_automaton self t1 in
  comprehension
    (fun '(error, t2) =>
       sim <- levsim t1 t2 (alpha self) (beta self) (threshold self)
                (Some error) ;;
       Returns (sim, t2))
    (filter (fun '(_, t2) => negb (String.eqb t1 t2))
       (trie_automaton_intersection automaton (trie self))).

(** Line 163: [[(t2, sim) for sim, t2 in similarities if sim > 0]];
    Python orders no complex number, so [sim > 0] raises on one. *)
Definition keep_positive (similarities : list (number * string))
  : outcome (list (string * R)) :=
  comprehension_if
    (fun '(sim, t2) =>
       match sim with
       | Real r => Returns (if Rlt_dec 0 r then Some (t2, r) else None)
       | Complex => Raises TypeError
       end)
    similarities.

Definition most_similar (self : LevenshteinSimilarityIndex) (t1 : string)
  (topn : Z) : outcome (list (string * R)) :=
  similarities <- similarities self t1 ;;
  most_similar <- keep_positive similarities ;;
  Returns (slice_to (sorted most_similar (fun item => - snd item)) topn).

End MostSimilar.

(** Modelled from the spec: [trie_automaton_intersection] of the pyffs
    package is not under src/.  By spec 8 the traversal yields exactly the
    pairs (t, d) with t a vocabulary term and d the edit distance between
    the query and t, for d at most the automaton's bound; here in the order
    of the trie's terms. *)
Definition intersection_by_distance (automaton : LevenshteinAutomaton)
  (trie : Trie) : list (Z * string) :=
  flat_map
    (fun t =>
       let d := Z.of_nat (Levenshtein_distance (automaton_query automaton) t) in
       if (d <=? automaton_max_distance automaton)%Z then [(d, t)] else [])
    (trie_terms trie).

(** ** Lines 101-105 in binary64 arithmetic

    The same expressions as in [max_distance_for_threshold] and [levsim],
    with every operation rounded as Python's [float] rounds it (IEEE 754
    binary64, round to nearest even).  They show where the float computation
    leaves the real one. *)

Section Binary64.

(** [x ** y] on two floats: Python hands it to the C library, which is not
    under src/. *)
Variable float_pow : float -> float -> float.

(** The [float] an [int] operand of a float operation is converted to. *)
Definition int_to_float (n : Z) : float :=
  PrimFloat.of_uint63 (Uint63.of_Z n).

(** [math.floor(x)]; it raises on an infinity and on a NaN ([None]). *)
Definition float_floor (x : float) : option Z :=
  match Prim2SF x with
  | S754_zero _ => Some 0%Z
  | S754_finite s m e =>
      let n := if s then Z.neg m else Z.pos m in
      Some (if (0 <=? e)%Z then n * 2 ^ e else n / 2 ^ (- e))%Z
  | S754_infinity _ | S754_nan => None
  end.

(** [float(max(min(min_similarity, 1.0), 0.0))] *)
Definition float_clamp_similarity (min_similarity : float) : float :=
  let m := if (1 <? min_similarity)%float then 1%float else min_similarity in
  if (m <? 0)%float then 0%float else m.

(** Line 102, for a non-zero [alpha] and [beta]. *)
Definition float_max_distance (max_lengths : Z)
  (alpha beta min_similarity : float) : option Z :=
  let min_similarity := float_clamp_similarity min_similarity in
  float_floor
    (int_to_float max_lengths
     * (1 - float_pow (min_similarity / alpha) (1 / beta)))%float.

(** Line 105. *)
Definition float_similarity (distance max_lengths : Z) (alpha beta : float)
  : float :=
  (alpha
   * float_pow (1 - int_to_float distance * 1 / int_to_float max_lengths) beta)
  %float.

End Binary64.

(** ** Notions the properties are stated with *)

(** The root the threshold inversion takes, [(m / alpha) ** (1 / beta)]
    for a clamped [m]. *)
Definition inversion_root (alpha beta m : R) : R :=
  if Req_EM_T (m / alpha) 0 then 0 else Rpower (m / alpha) (1 / beta).

(** The order [sorted] establishes. *)
Definition key_le {A : Type} (key : A -> R) (a b : A) : Prop := key a <= key b.

(** [sim > 0] holds for what a call of [levsim] gave. *)
Definition positive_score (o : outcome number) : bool :=
  match o with
  | Returns (Real r) => if Rlt_dec 0 r then true else false
  | _ => false
  end.

(** The score of a match, as line 159 computes it. *)
Definition match_score (self : LevenshteinSimilarityIndex) (t1 : string)
  (error : Z) (t2 : string) : outcome number :=
  levsim t1 t2 (alpha self) (beta self) (threshold self) (Some error).

(** The matches of a query: what the traversal yields, the query itself
    left out. *)
Definition matches (intersection : LevenshteinAutomaton -> Trie -> list (Z * string))
  (self : LevenshteinSimilarityIndex) (t1 : string) : list (Z * string) :=
  filter (fun '(_, t2) => negb (String.eqb t1 t2))
    (intersection (query_automaton self t1) (trie self)).

(** The number of matches whose similarity to the query is positive. *)
Definition positive_matches
  (intersection : LevenshteinAutomaton -> Trie -> list (Z * string))
  (self : LevenshteinSimilarityIndex) (t1 : string) : nat :=
  List.length
    (filter
       (fun '(error, t2) =>
          positive_score (match_score self t1 error t2))
       (matches intersection self t1)).

(** The matches with a positive similarity, each with its similarity, in
    the order the traversal yields them. *)
Definition scored_matches
  (intersection : LevenshteinAutomaton -> Trie -> list (Z * string))
  (self : LevenshteinSimilarityIndex) (t1 : string) : list (string * R) :=
  flat_map
    (fun '(error, t2) =>
       match match_score self t1 error t2 with
       | Returns (Real r) => if Rlt_dec 0 r then [(t2, r)] else []
       | _ => []
       end)
    (matches intersection self t1).

(** The pairs of a result whose similarity is [c]. *)
Definition with_score (c : R) (l : list (string * R)) : list (string * R) :=
  filter (fun item => if Req_EM_T (snd item) c then true else false) l.

(** A match whose distance is at most the length of the longer term, as
    every edit distance is. *)
Definition within_length (t1 : string) (m : Z * string) : Prop :=
  (fst m <= Z.of_nat (Nat.max (String.length t1) (String.length (snd m))))%Z.

(** ** Concrete indexes *)

Open Scope string_scope.

(** The vocabulary of the specification's scenario, with [max_distance = 1]
    and the defaults for the rest. *)
Definition cat_index : LevenshteinSimilarityIndex :=
  LevenshteinSimilarityIndex_init ["cat"; "cats"; "bat"; "dog"]
    default_alpha default_beta default_threshold 1.

(** An index whose threshold asks for a similarity of 1. *)
Definition strict_index : LevenshteinSimilarityIndex :=
  LevenshteinSimilarityIndex_init ["cat"; "cats"] 1 1 1 2.

(** * setup.py

    The build script, embedded as far as it computes: the tables of the
    extension modules, the extensions built from them, the test for missing
    sources and the [clean_ext] command.
    The file system is the set of the regular files, each given by its path
    relative to the working directory with "/" between the components (the
    paths [os.walk] and [os.path.join] form on a POSIX system); directories
    are the prefixes of these paths.  Symbolic links and permissions are not
    modelled: removing a file that is there does not fail. *)

Definition c_extensions : list (string * string) :=
  [("gensim.models.word2vec_inner", "gensim/models/word2vec_inner.c");
   ("gensim.corpora._mmreader", "gensim/corpora/_mmreader.c");
   ("gensim.models.fasttext_inner", "gensim/models/fasttext_inner.c");
   ("gensim._matutils", "gensim/_matutils.c");
   ("gensim.models.nmf_pgd", "gensim/models/nmf_pgd.c");
   ("gensim.similarities.fastss", "gensim/similarities/fastss.c")].

Definition cpp_extensions : list (string * string) :=
  [("gensim.models.doc2vec_inner", "gensim/models/doc2vec_inner.cpp");
   ("gensim.models.word2vec_corpusfile", "gensim/models/word2vec_corpusfile.cpp");
   ("gensim.models.fasttext_corpusfile", "gensim/models/fasttext_corpusfile.cpp");
   ("gensim.models.doc2vec_corpusfile", "gensim/models/doc2vec_corpusfile.cpp")].

(** ** Strings and paths of Python *)

(** [s.replace(old, new)]: every occurrence of [old], found from the left
    and not overlapping the previous one, becomes [new].  [skip] counts the
    characters of an occurrence still to pass over. *)
Fixpoint replace_from (old new : string) (skip : nat) (s : string) : string :=
  match s with
  | EmptyString => EmptyString
  | String c s' =>
      match skip with
      | S k => replace_from old new k s'
      | O =>
          if String.prefix old s
          then new ++ replace_from old new (String.length old - 1) s'
          else String c (replace_from old new 0 s')
      end
  end.

(** With an empty [old], [new] goes in front of every character and at the
    end. *)
Fixpoint intersperse (new s : string) : string :=
  match s with
  | EmptyString => new
  | String c s' => new ++ String c (intersperse new s')
  end.

Definition str_replace (s old new : string) : string :=
  match old with
  | EmptyString => intersperse new s
  | _ => replace_from old new 0 s
  end.

(** [s.rfind(c)] for a character [c]: the last index of [c], or -1. *)
Fixpoint rfind_from (c : ascii) (i : Z) (s : string) : Z :=
  match s with
  | EmptyString => (-1)%Z
  | String a s' =>
      let later := rfind_from c (i + 1) s' in
      if (0 <=? later)%Z then later
      else if Ascii.eqb a c then i else (-1)%Z
  end.

Definition rfind (s : string) (c : ascii) : Z := rfind_from c 0 s.

(** The slice [s[i:j]] for indices within the string. *)
Definition str_slice (s : string) (i j : Z) : string :=
  String.substring (Z.to_nat i) (Z.to_nat (j - i)) s.

(** Some character of [s[i:j]] is not a dot: the loop of [_splitext] over
    the leading dots of the file name. *)
Definition not_all_dots (s : string) (i j : Z) : bool :=
  existsb (fun a => negb (Ascii.eqb a "."%char))
    (list_ascii_of_string (str_slice s i j)).

(** [os.path.splitext(p)] of posixpath: the extension starts at the last
    dot of the last component, unless that component has only dots in
    front of it. *)
Definition splitext (p : string) : string * string :=
  let sepIndex := rfind p "/"%char in
  let dotIndex := rfind p "."%char in
  if (sepIndex <? dotIndex)%Z && not_all_dots p (sepIndex + 1) dotIndex
  then (str_slice p 0 dotIndex,
        str_slice p dotIndex (Z.of_nat (String.length p)))
  else (p, EmptyString).

(** [os.path.join(root, f)] for a [root] that does not end in "/" and a
    relative [f], as [os.walk] supplies them. *)
Definition path_join (root f : string) : string := root ++ "/" ++ f.

(** The directory and the name of a path with a "/" in it. *)
Fixpoint split_last (p : string) : option (string * string) :=
  match p with
  | EmptyString => None
  | String c p' =>
      match split_last p' with
      | Some (d, b) => Some (String c d, b)
      | None => if Ascii.eqb c "/"%char then Some (EmptyString, p') else None
      end
  end.

(** The path [p] lies under the directory [top]. *)
Definition under (top p : string) : bool := String.prefix (top ++ "/") p.

(** ** The file system *)

Definition filesystem : Type := list string.

(** [os.path.isfile(p)] *)
Definition isfile (fs : filesystem) (p : string) : bool :=
  existsb (String.eqb p) fs.

(** [os.path.isdir(d)]: only directories that hold a file, directly or
    further down, are told apart from missing ones. *)
Definition isdir (fs : filesystem) (d : string) : bool :=
  existsb (under d) fs.

(** [os.unlink(p)] *)
Definition unlink (p : string) (fs : filesystem) : filesystem :=
  filter (fun q => negb (String.eqb p q)) fs.

(** [shutil.rmtree(d)] *)
Definition rmtree (d : string) (fs : filesystem) : filesystem :=
  filter (fun q => negb (under d q)) fs.

(** The names of the files directly in the directory [root]. *)
Definition files_in (fs : filesystem) (root : string) : list string :=
  flat_map
    (fun p =>
       match split_last p with
       | Some (d, b) => if String.eqb d root then [b] else []
       | None => []
       end)
    fs.

(** [os.walk(top)]: each directory under [top] that holds a file, [top]
    included, with the names of its files.  The subdirectory names that
    [os.walk] yields as well are not used by the script, and a directory
    without files gives the loops over its files nothing to do. *)
Definition os_walk (fs : filesystem) (top : string)
  : list (string * list string) :=
  map (fun root => (root, files_in fs root))
    (nodup string_dec
       (flat_map
          (fun p =>
             match split_last p with
             | Some (d, _) =>
                 if String.eqb d top || under top d then [d] else []
             | None => []
             end)
          fs)).

(** ** need_cython and the extensions *)

(** [need_cython()], for the files there are. *)
Definition need_cython (fs : filesystem) : bool :=
  let expected := (map snd c_extensions ++ map snd cpp_extensions)%list in
  existsb (fun f => negb (isfile fs f)) expected.

(** The fields of a setuptools [Extension] the script sets;
    [extra_link_args] is empty when it is not given. *)
Record Extension : Type := {
  ext_name : string;
  ext_sources : list string;
  ext_language : string;
  ext_extra_compile_args : list string;
  ext_extra_link_args : list string
}.

(** [list(make_c_ext(use_cython))] *)
Definition make_c_ext (use_cython : bool) : list Extension :=
  map
    (fun '(module, source) =>
       let source :=
         if use_cython then str_replace source ".c" ".pyx" else source in
       let extra_args : list string := [] in
       {| ext_name := module;
          ext_sources := [source];
          ext_language := "c";
          ext_extra_compile_args := extra_args;
          ext_extra_link_args := [] |})
    c_extensions.

(** [list(make_cpp_ext(use_cython))] on a platform whose
    [platform.system()] is [system]. *)
Definition make_cpp_ext (system : string) (use_cython : bool) : list Extension :=
  let extra_args : list string :=
    if String.eqb system "Linux" then ["-std=c++11"]
    else if String.eqb system "Darwin" then ["-stdlib=libc++"; "-std=c++11"]
    else [] in
  map
    (fun '(module, source) =>
       let source :=
         if use_cython then str_replace source ".cpp" ".pyx" else source in
       {| ext_name := module;
          ext_sources := [source];
          ext_language := "c++";
          ext_extra_compile_args := extra_args;
          ext_extra_link_args := extra_args |})
    cpp_extensions.

Definition ext_modules (system : string) : list Extension :=
  (make_c_ext false ++ make_cpp_ext system false)%list.

(** ** CleanExt *)

(** The body of the loop of [CleanExt.run] for one directory: the files to
    remove are collected, then unlinked one by one. *)
Definition clean_directory (fs : filesystem) (entry : string * list string)
  : filesystem :=
  let '(root, files) := entry in
  let files :=
    map (path_join root)
      (filter
         (fun f =>
            let ext := snd (splitext f) in
            String.eqb ext ".c" || String.eqb ext ".cpp" || String.eqb ext ".so")
         files) in
  fold_left (fun fs f => unlink f fs) files fs.

(** [CleanExt.run]: the file system it leaves (what it announces is not
    kept). *)
Definition CleanExt_run (fs : filesystem) : filesystem :=
  let fs := fold_left clean_directory (os_walk fs "gensim") fs in
  if isdir fs "build" then rmtree "build" fs else fs.

(** The names [CleanExt.run] removes: those whose extension is that of a
    C source, a C++ source or a shared object. *)
Definition generated_name (f : string) : bool :=
  let ext := snd (splitext f) in
  String.eqb ext ".c" || String.eqb ext ".cpp" || String.eqb ext ".so".

(** A file in the directory gensim, or in a directory below it, with such a
    name. *)
Definition generated (p : string) : bool :=
  match split_last p with
  | Some (d, b) => (String.eqb d "gensim" || under "gensim" d) && generated_name b
  | None => false
  end.

(** The paths one pass of the loop of [CleanExt.run] unlinks. *)
Definition clean_targets (entries : list (string * list string)) : list string :=
  flat_map
    (fun '(root, files) => map (path_join root) (filter generated_name files))
    entries.

(** * Properties *)

(** ** Arithmetic of the embedded Python operations *)

Ltac case_if :=
  match goal with
  | |- context [if ?c then _ else _] => destruct c
  | H : context [if ?c then _ else _] |- _ => destruct c
  end.

Lemma py_div_nonzero (a b : R) : b <> 0 -> py_div a b = Returns (a / b).
Proof. intros Hb. unfold py_div. case_if; [contradiction | reflexivity]. Qed.

Lemma py_div_zero (a : R) : py_div a 0 = Raises ZeroDivisionError.
Proof. unfold py_div. case_if; [reflexivity | exfalso; auto]. Qed.

Lemma py_pow_positive (x y : R) :
  0 < x -> y <> 0 -> py_pow x y = Returns (Real (Rpower x y)).
Proof.
  intros Hx Hy. unfold py_pow.
  repeat case_if; try reflexivity; try contradiction; lra.
Qed.

Lemma py_pow_zero_base (y : R) : 0 < y -> py_pow 0 y = Returns (Real 0).
Proof.
  intros Hy. unfold py_pow.
  repeat case_if; try reflexivity; try lra; exfalso; auto.
Qed.

Lemma py_pow_nat (x : R) (n : nat) :
  0 < x -> (0 < n)%nat -> py_pow x (INR n) = Returns (Real (x ^ n)).
Proof.
  intros Hx Hn. rewrite py_pow_positive; auto.
  - now rewrite Rpower_pow.
  - apply not_0_INR. lia.
Qed.

Lemma Int_part_IZR (z : Z) : Int_part (IZR z) = z.
Proof. symmetry. apply Int_part_spec. lra. Qed.

Lemma py_pow_negative_base (x : R) (z : Z) :
  x < 0 -> z <> 0%Z -> py_pow x (IZR z) = Returns (Real (powerRZ x z)).
Proof.
  intros Hx Hz. unfold py_pow. rewrite Int_part_IZR.
  repeat case_if; try reflexivity; try lra.
  all: try (apply eq_IZR in e; contradiction).
  all: exfalso; auto.
Qed.

Lemma clamp_similarity_range (m : R) : 0 <= clamp_similarity m <= 1.
Proof.
  unfold clamp_similarity, Rmax, Rmin. repeat case_if; lra.
Qed.

Lemma clamp_similarity_id (m : R) : 0 <= m <= 1 -> clamp_similarity m = m.
Proof.
  unfold clamp_similarity, Rmax, Rmin. repeat case_if; lra.
Qed.

Lemma clamp_similarity_positive (m : R) : 0 < m -> 0 < clamp_similarity m.
Proof.
  unfold clamp_similarity, Rmax, Rmin. repeat case_if; lra.
Qed.

Lemma inversion_root_nonneg (alpha beta m : R) : 0 <= inversion_root alpha beta m.
Proof.
  unfold inversion_root. case_if; [lra |].
  left. unfold Rpower. apply exp_pos.
Qed.

Lemma max_distance_for_threshold_value (n : nat) (alpha beta m : R) :
  0 < alpha -> 0 < beta ->
  max_distance_for_threshold n alpha beta m =
  Returns (Int_part (INR n * (1 - inversion_root alpha beta (clamp_similarity m)))).
Proof.
  intros Ha Hb. unfold max_distance_for_threshold, inversion_root.
  pose proof (clamp_similarity_range m) as Hm.
  set (c := clamp_similarity m) in *.
  rewrite (py_div_nonzero c alpha) by lra.
  rewrite (py_div_nonzero 1 beta) by lra. simpl.
  assert (He : 0 < 1 / beta) by (apply Rdiv_lt_0_compat; lra).
  assert (Hq : 0 <= c / alpha).
  { unfold Rdiv. apply Rmult_le_pos; [lra |].
    left. apply Rinv_0_lt_compat. lra. }
  case_if.
  - rewrite e, py_pow_zero_base by assumption. reflexivity.
  - rewrite py_pow_positive by lra. reflexivity.
Qed.

(** ** levsim *)

Lemma max_lengths_positive (t1 t2 : string) :
  Nat.max (String.length t1) (String.length t2) <> 0%nat ->
  0 < INR (Nat.max (String.length t1) (String.length t2)).
Proof. intros H. apply lt_0_INR. lia. Qed.

(** With positive [alpha] and [beta] and a supplied distance, [levsim] is
    the formula of Charlet and Damnati. *)
Lemma levsim_supplied (t1 t2 : string) (alpha beta m : R) (d : Z) :
  0 < alpha -> 0 < beta ->
  Nat.max (String.length t1) (String.length t2) <> 0%nat ->
  levsim t1 t2 alpha beta m (Some d) =
  (power <- py_pow
              (1 - IZR d * 1 / INR (Nat.max (String.length t1) (String.length t2)))
              beta ;;
   Returns (py_mul alpha power)).
Proof.
  intros Ha Hb HL. unfold levsim.
  pose proof (max_lengths_positive t1 t2 HL) as Hl.
  destruct (Rle_dec 0 alpha); [| lra].
  destruct (Rle_dec 0 beta); [| lra].
  destruct (Nat.eqb_spec (Nat.max (String.length t1) (String.length t2)) 0);
    [contradiction |].
  rewrite max_distance_for_threshold_value by assumption. simpl.
  rewrite py_div_nonzero by lra. reflexivity.
Qed.

(** A zero [alpha] passes the assertion and then divides by zero. *)
Lemma levsim_zero_alpha (t1 t2 : string) (beta m : R) (d : option Z) :
  0 <= beta ->
  Nat.max (String.length t1) (String.length t2) <> 0%nat ->
  levsim t1 t2 0 beta m d = Raises ZeroDivisionError.
Proof.
  intros Hb HL. unfold levsim.
  destruct (Rle_dec 0 0); [| lra].
  destruct (Rle_dec 0 beta); [| lra].
  destruct (Nat.eqb_spec (Nat.max (String.length t1) (String.length t2)) 0);
    [contradiction |].
  unfold max_distance_for_threshold. rewrite py_div_zero. reflexivity.
Qed.

(** A zero [beta] passes the assertion and then divides by zero. *)
Lemma levsim_zero_beta (t1 t2 : string) (alpha m : R) (d : option Z) :
  0 <= alpha ->
  Nat.max (String.length t1) (String.length t2) <> 0%nat ->
  levsim t1 t2 alpha 0 m d = Raises ZeroDivisionError.
Proof.
  intros Ha HL. unfold levsim.
  destruct (Rle_dec 0 alpha); [| lra].
  destruct (Rle_dec 0 0); [| lra].
  destruct (Nat.eqb_spec (Nat.max (String.length t1) (String.length t2)) 0);
    [contradiction |].
  unfold max_distance_for_threshold, py_div.
  destruct (Req_EM_T alpha 0); [reflexivity |].
  destruct (Req_EM_T 0 0); [reflexivity | exfalso; auto].
Qed.

Lemma levsim_empty (alpha beta m : R) (d : option Z) :
  0 <= alpha -> 0 <= beta ->
  levsim "" "" alpha beta m d = Returns (Real 1).
Proof.
  intros Ha Hb. unfold levsim.
  destruct (Rle_dec 0 alpha); [| lra].
  destruct (Rle_dec 0 beta); [| lra].
  reflexivity.
Qed.

(** C1, at the failing input: [alpha = 0] (and likewise [beta = 0]) satisfies
    the assertions of [levsim], and for two terms that are not both empty the
    call raises [ZeroDivisionError] where the formula gives [0 * (1 - 1/1)^5].
    The same holds with the default arguments and [beta = 0]. *)
Theorem levsim_zero_factor_raises :
  levsim "a" "b" 0 5 0 (Some 1%Z) = Raises ZeroDivisionError /\
  levsim "a" "b" (18 / 10) 0 0 (Some 1%Z) = Raises ZeroDivisionError.
Proof.
  split.
  - apply levsim_zero_alpha; [lra | simpl; lia].
  - apply levsim_zero_beta; [lra | simpl; lia].
Qed.

(** C8: a call of [levsim] raises [AssertionError] exactly when [alpha] or
    [beta] is negative: a negative factor is rejected by the call that
    receives it, whatever the other arguments are, and no call with
    [alpha >= 0] and [beta >= 0] raises it. *)
Theorem levsim_assertion_iff (t1 t2 : string) (alpha beta m : R) (d : option Z) :
  levsim t1 t2 alpha beta m d = Raises AssertionError <-> alpha < 0 \/ beta < 0.
Proof.
  unfold levsim. split.
  - destruct (Rle_dec 0 alpha); [| intros _; left; lra].
    destruct (Rle_dec 0 beta); [| intros _; right; lra].
    unfold max_distance_for_threshold, py_div, py_pow, bind.
    repeat (case_if; try discriminate).
    all: try (destruct d; unfold bind; repeat (case_if; try discriminate)).
  - intros [H | H].
    + destruct (Rle_dec 0 alpha); [lra | reflexivity].
    + destruct (Rle_dec 0 alpha); [| reflexivity].
      destruct (Rle_dec 0 beta); [lra | reflexivity].
Qed.

(** The score for a base that is not negative. *)
Lemma py_pow_nonneg_base (b beta : R) :
  0 <= b -> 0 < beta ->
  exists p, py_pow b beta = Returns (Real p) /\ 0 <= p /\
            (0 < b -> p = Rpower b beta) /\ (b = 0 -> p = 0).
Proof.
  intros Hb Hbeta. destruct (Req_EM_T b 0) as [-> | Hne].
  - exists 0. rewrite py_pow_zero_base by assumption.
    repeat split; intros; lra.
  - exists (Rpower b beta). rewrite py_pow_positive by lra.
    assert (0 < Rpower b beta) by (unfold Rpower; apply exp_pos).
    repeat split; intros; lra || contradiction.
Qed.


Lemma ratio_le_1 (d : Z) (n : nat) :
  (d <= Z.of_nat n)%Z -> 0 < INR n -> IZR d * 1 / INR n <= 1.
Proof.
  intros H Hn. apply IZR_le in H. rewrite <- INR_IZR_INZ in H.
  apply (Rmult_le_reg_r (INR n)); [assumption |].
  unfold Rdiv. rewrite Rmult_assoc, Rinv_l by lra. lra.
Qed.


Lemma levsim_past_length :
  levsim "a" "b" 1 2 0 (Some 2%Z) = Returns (Real 1).
Proof.
  rewrite levsim_supplied by (simpl; try lra; lia). simpl.
  replace (1 - 2 * 1 / 1) with (-1) by field.
  rewrite (py_pow_negative_base (-1) 2) by (lra || lia). simpl.
  do 2 f_equal. lra.
Qed.




(** ** The distance bound derived from a similarity threshold *)

Lemma inversion_root_positive (alpha beta c : R) :
  0 < alpha -> 0 < c ->
  inversion_root alpha beta c = Rpower (c / alpha) (1 / beta) /\
  0 < inversion_root alpha beta c.
Proof.
  intros Ha Hc. unfold inversion_root.
  assert (0 < c / alpha) by (apply Rdiv_lt_0_compat; assumption).
  destruct (Req_EM_T (c / alpha) 0); [lra |].
  split; [reflexivity | unfold Rpower; apply exp_pos].
Qed.

(** Raising the root back to [beta] and scaling by [alpha] gives the
    threshold. *)
Lemma inversion_root_power (alpha beta c : R) :
  0 < alpha -> 0 < beta -> 0 < c ->
  alpha * Rpower (inversion_root alpha beta c) beta = c.
Proof.
  intros Ha Hb Hc.
  destruct (inversion_root_positive alpha beta c Ha Hc) as [-> _].
  rewrite Rpower_mult.
  replace (1 / beta * beta) with 1 by (field; lra).
  rewrite Rpower_1 by (apply Rdiv_lt_0_compat; assumption).
  field. lra.
Qed.

(** Without a threshold ([min_similarity = 0], the default) the derived
    bound is the length of the longer term and nothing lies beyond it: for
    [alpha = 1], [beta = 2] and terms of length 1 the bound is 1, and the
    score the formula gives at distance 2 is 1. *)
Lemma threshold_bound_not_tight_at_zero :
  max_distance_for_threshold 1 1 2 0 = Returns 1%Z /\
  levsim "a" "b" 1 2 0 (Some (1 + 1)%Z) = Returns (Real 1) /\
  clamp_similarity 0 < 1.
Proof.
  split; [| split].
  - rewrite max_distance_for_threshold_value by lra.
    rewrite clamp_similarity_id by lra.
    unfold inversion_root. replace (0 / 1) with 0 by field.
    destruct (Req_EM_T 0 0); [| exfalso; auto].
    simpl. replace (1 * (1 - 0)) with (IZR 1) by lra.
    now rewrite Int_part_IZR.
  - exact levsim_past_length.
  - rewrite clamp_similarity_id; lra.
Qed.

(** What the inversion of line 102 is meant to give, in exact arithmetic:
    for terms whose longer length is [max_len > 0], [alpha > 0], [beta > 0]
    and a positive [min_similarity], the bound [d] is tight: the score at
    distance [d] is at least the clamped threshold and the score at [d + 1]
    is below it.  The rounded computation of the source does not keep this,
    see [float_bound_misses_threshold]. *)
Theorem threshold_bound_tight (t1 t2 : string) (alpha beta m : R) :
  0 < alpha -> 0 < beta -> 0 < m ->
  Nat.max (String.length t1) (String.length t2) <> 0%nat ->
  exists d s1 s2,
    max_distance_for_threshold
      (Nat.max (String.length t1) (String.length t2)) alpha beta m = Returns d /\
    levsim t1 t2 alpha beta m (Some d) = Returns (Real s1) /\
    clamp_similarity m <= s1 /\
    levsim t1 t2 alpha beta m (Some (d + 1)%Z) = Returns (Real s2) /\
    s2 < clamp_similarity m.
Proof.
  intros Ha Hb Hm HL.
  pose proof (max_lengths_positive t1 t2 HL) as Hl.
  pose proof (clamp_similarity_positive m Hm) as Hc.
  pose proof (max_distance_for_threshold_value
                (Nat.max (String.length t1) (String.length t2)) alpha beta m Ha Hb)
    as Hbound.
  pose proof (fun d => levsim_supplied t1 t2 alpha beta m d Ha Hb HL) as Hsim.
  set (l := INR (Nat.max (String.length t1) (String.length t2))) in *.
  set (c := clamp_similarity m) in *.
  destruct (inversion_root_positive alpha beta c Ha Hc) as [_ Hp].
  pose proof (inversion_root_power alpha beta c Ha Hb Hc) as Hpow.
  set (p := inversion_root alpha beta c) in *.
  destruct (base_Int_part (l * (1 - p))) as [Hlo Hhi].
  set (d := Int_part (l * (1 - p))) in *.
  pose proof (Rinv_0_lt_compat l Hl) as Hi.
  assert (Hli : l * / l = 1) by (apply Rinv_r; lra).
  assert (B1 : p <= 1 - IZR d * 1 / l).
  { unfold Rdiv. nra. }
  assert (B2 : 1 - IZR (d + 1) * 1 / l < p).
  { rewrite plus_IZR. unfold Rdiv. nra. }
  assert (B3 : 0 <= 1 - IZR (d + 1) * 1 / l).
  { assert (Hd : (d + 1 <= Z.of_nat (Nat.max (String.length t1) (String.length t2)))%Z).
    { apply Z.lt_succ_r. unfold Z.succ. apply lt_IZR.
      rewrite !plus_IZR, <- INR_IZR_INZ. fold l. nra. }
    pose proof (ratio_le_1 _ _ Hd Hl) as Hr. fold l in Hr. lra. }
  destruct (py_pow_nonneg_base (1 - IZR (d + 1) * 1 / l) beta B3 Hb)
    as (p2 & E2 & P2 & Q2 & Z2).
  exists d, (alpha * Rpower (1 - IZR d * 1 / l) beta), (alpha * p2).
  rewrite !Hsim, Hbound, E2, py_pow_positive by lra. simpl.
  repeat split.
  - rewrite <- Hpow at 1. apply Rmult_le_compat_l; [lra |].
    apply Rle_Rpower_l; lra.
  - rewrite <- Hpow. apply Rmult_lt_compat_l; [assumption |].
    destruct (Req_EM_T (1 - IZR (d + 1) * 1 / l) 0) as [E | E].
    + rewrite (Z2 E). unfold Rpower. apply exp_pos.
    + rewrite Q2 by lra. apply Rlt_Rpower_l; lra.
Qed.

Lemma threshold_bound_tight_witness :
  exists d s1 s2,
    max_distance_for_threshold
      (Nat.max (String.length "cat") (String.length "cats")) (18 / 10) 5 (1 / 2)
      = Returns d /\
    levsim "cat" "cats" (18 / 10) 5 (1 / 2) (Some d) = Returns (Real s1) /\
    clamp_similarity (1 / 2) <= s1 /\
    levsim "cat" "cats" (18 / 10) 5 (1 / 2) (Some (d + 1)%Z) = Returns (Real s2) /\
    s2 < clamp_similarity (1 / 2).
Proof.
  apply (threshold_bound_tight "cat" "cats" (18 / 10) 5 (1 / 2));
    simpl; lra || lia.
Defined.

Lemma exact_bound_five_quarters :
  max_distance_for_threshold 5 (5 / 4) 1 1 = Returns 1%Z.
Proof.
  rewrite max_distance_for_threshold_value by lra.
  rewrite clamp_similarity_id by lra. unfold inversion_root.
  destruct (Req_EM_T (1 / (5 / 4)) 0); [lra |].
  replace (1 / 1) with 1 by field.
  rewrite Rpower_1 by lra.
  replace (INR 5 * (1 - 1 / (5 / 4))) with (IZR 1) by (simpl; lra).
  now rewrite Int_part_IZR.
Qed.

(** C2, at the failing input: [alpha = 1.25], [beta = 1.0],
    [min_similarity = 1.0] and terms of length 5, for any [**] with
    [x ** 1.0 = x].  In exact arithmetic [1 - 1.0 / 1.25] is 0.2 and the
    bound is [floor(5 * 0.2) = 1], which is tight.  In binary64
    [1 - 0.8] is 0.19999999999999996 and the product 0.9999999999999998, so
    the source derives [d = 0]: the score at [d + 1 = 1] is
    [1.25 * 0.8 = 1.0], which is not below [min_similarity]; and for two
    terms at distance 1 [levdist], given the bound 0, returns 5, whose score
    is 0.0 although their similarity 1.0 reaches [min_similarity]. *)
Theorem float_bound_misses_threshold (float_pow : float -> float -> float) :
  (forall x, float_pow x 1%float = x) ->
  max_distance_for_threshold 5 (5 / 4) 1 1 = Returns 1%Z /\
  float_max_distance float_pow 5 1.25 1 1 = Some 0%Z /\
  float_similarity float_pow (0 + 1) 5 1.25 1 = 1%float /\
  PrimFloat.ltb (float_similarity float_pow (0 + 1) 5 1.25 1) 1 = false /\
  levdist "abcde" "abcdx" (Finite (IZR 0)) = 5%nat /\
  float_similarity float_pow 5 5 1.25 1 = 0%float.
Proof.
  intros Hpow. split; [exact exact_bound_five_quarters |].
  unfold float_max_distance, float_similarity, float_clamp_similarity.
  assert (E1 : (1 / 1)%float = 1%float) by reflexivity.
  assert (E2 : (if (1 <? 1)%float then 1%float else 1%float) = 1%float)
    by reflexivity.
  rewrite E2. cbv zeta.
  assert (E3 : (if (1 <? 0)%float then 0%float else 1%float) = 1%float)
    by reflexivity.
  rewrite E3, E1, !Hpow.
  repeat split; try (vm_compute; reflexivity).
  unfold levdist, exceeds.
  destruct (Rlt_dec (IZR 0) (INR (Levenshtein_distance "abcde" "abcdx")))
    as [_ | H]; [reflexivity |].
  exfalso. apply H. simpl. lra.
Qed.

Lemma float_bound_misses_threshold_witness :
  max_distance_for_threshold 5 (5 / 4) 1 1 = Returns 1%Z /\
  float_max_distance (fun x _ => x) 5 1.25 1 1 = Some 0%Z /\
  float_similarity (fun x _ => x) (0 + 1) 5 1.25 1 = 1%float /\
  PrimFloat.ltb (float_similarity (fun x _ => x) (0 + 1) 5 1.25 1) 1 = false /\
  levdist "abcde" "abcdx" (Finite (IZR 0)) = 5%nat /\
  float_similarity (fun x _ => x) 5 5 1.25 1 = 0%float.
Proof.
  apply (float_bound_misses_threshold (fun x _ => x)). reflexivity.
Defined.

(** ** Levenshtein.distance and levdist *)

Section EditDistance.

Local Open Scope nat_scope.

Lemma Levenshtein_distance_empty_r (s : string) :
  Levenshtein_distance s EmptyString = String.length s.
Proof. destruct s; reflexivity. Qed.

Lemma Levenshtein_distance_cons (a b : ascii) (s t : string) :
  Levenshtein_distance (String a s) (String b t) =
  Nat.min (S (Levenshtein_distance s (String b t)))
    (Nat.min (S (Levenshtein_distance (String a s) t))
       (Levenshtein_distance s t + (if Ascii.eqb a b then 0 else 1))).
Proof. reflexivity. Qed.

Lemma edit_script_from_empty (t : string) :
  edit_script EmptyString t (String.length t).
Proof.
  induction t as [| b t IH]; simpl.
  - constructor.
  - now apply edit_insert.
Qed.

Lemma edit_script_to_empty (s : string) :
  edit_script s EmptyString (String.length s).
Proof.
  induction s as [| a s IH]; simpl.
  - constructor.
  - now apply edit_delete.
Qed.

(** The recurrence is the cost of some edit script ... *)
Lemma Levenshtein_distance_script (s t : string) :
  edit_script s t (Levenshtein_distance s t).
Proof.
  revert t. induction s as [| a s IHs]; intros t.
  - apply edit_script_from_empty.
  - induction t as [| b t IHt].
    + rewrite Levenshtein_distance_empty_r. apply edit_script_to_empty.
    + rewrite Levenshtein_distance_cons.
      destruct (Nat.min_spec (S (Levenshtein_distance s (String b t)))
                  (Nat.min (S (Levenshtein_distance (String a s) t))
                     (Levenshtein_distance s t
                      + (if Ascii.eqb a b then 0 else 1))))
        as [[_ ->] | [_ ->]].
      * apply edit_delete, IHs.
      * destruct (Nat.min_spec (S (Levenshtein_distance (String a s) t))
                    (Levenshtein_distance s t
                     + (if Ascii.eqb a b then 0 else 1)))
          as [[_ ->] | [_ ->]].
        -- apply edit_insert, IHt.
        -- destruct (Ascii.eqb_spec a b) as [-> | _].
           ++ rewrite Nat.add_0_r. apply edit_keep, IHs.
           ++ rewrite Nat.add_1_r. apply edit_substitute, IHs.
Qed.

Lemma Levenshtein_distance_delete (a : ascii) (s t : string) :
  Levenshtein_distance (String a s) t <= S (Levenshtein_distance s t).
Proof.
  destruct t as [| b t].
  - rewrite !Levenshtein_distance_empty_r. reflexivity.
  - rewrite Levenshtein_distance_cons. apply Nat.le_min_l.
Qed.

Lemma Levenshtein_distance_insert (b : ascii) (s t : string) :
  Levenshtein_distance s (String b t) <= S (Levenshtein_distance s t).
Proof.
  destruct s as [| a s].
  - reflexivity.
  - rewrite Levenshtein_distance_cons. lia.
Qed.

(** ... and no edit script is cheaper. *)
Lemma Levenshtein_distance_least (s t : string) (n : nat) :
  edit_script s t n -> Levenshtein_distance s t <= n.
Proof.
  induction 1 as [| a s t n _ IH | b s t n _ IH | a s t n _ IH | a b s t n _ IH].
  - reflexivity.
  - pose proof (Levenshtein_distance_delete a s t). lia.
  - pose proof (Levenshtein_distance_insert b s t). lia.
  - rewrite Levenshtein_distance_cons, Ascii.eqb_refl. lia.
  - rewrite Levenshtein_distance_cons. destruct (Ascii.eqb a b); lia.
Qed.

Lemma Levenshtein_distance_correct (s t : string) :
  is_levenshtein_distance s t (Levenshtein_distance s t).
Proof.
  split.
  - apply Levenshtein_distance_script.
  - apply Levenshtein_distance_least.
Qed.

Lemma is_levenshtein_distance_unique (s t : string) (d : nat) :
  is_levenshtein_distance s t d -> d = Levenshtein_distance s t.
Proof.
  intros [Hs Hmin].
  pose proof (Levenshtein_distance_least s t d Hs).
  pose proof (Hmin _ (Levenshtein_distance_script s t)). lia.
Qed.

(** No distance is larger than the longer term. *)
Lemma Levenshtein_distance_le_max (s t : string) :
  Levenshtein_distance s t <= Nat.max (String.length s) (String.length t).
Proof.
  revert t. induction s as [| a s IHs]; intros t.
  - simpl. lia.
  - destruct t as [| b t].
    + rewrite Levenshtein_distance_empty_r. lia.
    + rewrite Levenshtein_distance_cons. specialize (IHs t).
      cbn [String.length]. destruct (Ascii.eqb a b); lia.
Qed.

End EditDistance.

(** C10: let [d] be the Levenshtein distance of [t1] and [t2] (the cost of a
    cheapest edit script).  When [d <= max_distance], [levdist] returns [d];
    when [d > max_distance], it returns [max(len(t1), len(t2))]; with the
    default [max_distance] (infinity) it returns [d]. *)
Theorem levdist_clips_at_max_distance (t1 t2 : string) (d : nat) :
  is_levenshtein_distance t1 t2 d ->
  (forall r, INR d <= r -> levdist t1 t2 (Finite r) = d) /\
  (forall r, r < INR d ->
     levdist t1 t2 (Finite r) = Nat.max (String.length t1) (String.length t2)) /\
  levdist t1 t2 Infinity = d.
Proof.
  intros H. apply is_levenshtein_distance_unique in H. subst d.
  unfold levdist, exceeds. repeat split.
  - intros r Hr. destruct (Rlt_dec r (INR (Levenshtein_distance t1 t2))); [lra | reflexivity].
  - intros r Hr. destruct (Rlt_dec r (INR (Levenshtein_distance t1 t2))); [reflexivity | lra].
Qed.

Lemma levdist_clips_at_max_distance_witness :
  (forall r, INR 1 <= r -> levdist "cat" "cats" (Finite r) = 1%nat) /\
  (forall r, r < INR 1 ->
     levdist "cat" "cats" (Finite r)
     = Nat.max (String.length "cat") (String.length "cats")) /\
  levdist "cat" "cats" Infinity = 1%nat.
Proof.
  apply (levdist_clips_at_max_distance "cat" "cats" 1).
  exact (Levenshtein_distance_correct "cat" "cats").
Defined.

(** ** Comprehensions, sorting and slicing *)

Section Comprehensions.

Context {A B : Type}.

Lemma bind_returns {X Y : Type} (m : outcome X) (k : X -> outcome Y) (y : Y) :
  bind m k = Returns y -> exists x, m = Returns x /\ k x = Returns y.
Proof.
  destruct m as [x | e]; simpl; intros H; [eauto | discriminate].
Qed.

Lemma comprehension_cons (f : A -> outcome B) (x : A) (l : list A)
  (ys : list B) :
  comprehension f (x :: l) = Returns ys ->
  exists y ys', f x = Returns y /\ comprehension f l = Returns ys' /\
                ys = y :: ys'.
Proof.
  simpl. intros H.
  apply bind_returns in H as (y & Hy & H).
  apply bind_returns in H as (ys' & Hys & H).
  inversion H. eauto.
Qed.

Lemma comprehension_In (f : A -> outcome B) (l : list A) (ys : list B) (y : B) :
  comprehension f l = Returns ys -> In y ys ->
  exists x, In x l /\ f x = Returns y.
Proof.
  revert ys. induction l as [| x l IH]; intros ys H Hin.
  - inversion H; subst. contradiction.
  - apply comprehension_cons in H as (y0 & ys' & Hy & Hys & ->).
    destruct Hin as [<- | Hin].
    + exists x. split; [now left | assumption].
    + destruct (IH _ Hys Hin) as (x' & Hx' & Hf).
      exists x'. split; [now right | assumption].
Qed.

Lemma comprehension_if_cons (f : A -> outcome (option B)) (x : A)
  (l : list A) (ys : list B) :
  comprehension_if f (x :: l) = Returns ys ->
  exists o ys', f x = Returns o /\ comprehension_if f l = Returns ys' /\
                ys = match o with Some b => b :: ys' | None => ys' end.
Proof.
  simpl. intros H.
  apply bind_returns in H as (o & Ho & H).
  apply bind_returns in H as (ys' & Hys & H).
  inversion H. eauto.
Qed.

Lemma comprehension_if_In (f : A -> outcome (option B)) (l : list A)
  (ys : list B) (y : B) :
  comprehension_if f l = Returns ys -> In y ys ->
  exists x, In x l /\ f x = Returns (Some y).
Proof.
  revert ys. induction l as [| x l IH]; intros ys H Hin.
  - inversion H; subst. contradiction.
  - apply comprehension_if_cons in H as (o & ys' & Ho & Hys & ->).
    destruct o as [b |].
    + destruct Hin as [<- | Hin].
      * exists x. split; [now left | assumption].
      * destruct (IH _ Hys Hin) as (x' & Hx' & Hf).
        exists x'. split; [now right | assumption].
    + destruct (IH _ Hys Hin) as (x' & Hx' & Hf).
      exists x'. split; [now right | assumption].
Qed.

End Comprehensions.

Section Sorting.

Context {A : Type} (key : A -> R).

Lemma insert_by_key_perm (x : A) (l : list A) :
  Permutation (insert_by_key key x l) (x :: l).
Proof.
  induction l as [| y l IH]; simpl.
  - reflexivity.
  - destruct (Rle_dec (key x) (key y)).
    + reflexivity.
    + rewrite IH. apply perm_swap.
Qed.

Lemma sorted_perm (l : list A) : Permutation (sorted l key) l.
Proof.
  induction l as [| x l IH]; simpl.
  - reflexivity.
  - unfold sorted in *. simpl. rewrite insert_by_key_perm. now constructor.
Qed.

Lemma sorted_length (l : list A) : List.length (sorted l key) = List.length l.
Proof. apply Permutation_length, sorted_perm. Qed.

Lemma insert_by_key_sorted (x : A) (l : list A) :
  StronglySorted (key_le key) l -> StronglySorted (key_le key) (insert_by_key key x l).
Proof.
  induction 1 as [| y l Hs IH Hy]; simpl.
  - repeat constructor.
  - destruct (Rle_dec (key x) (key y)) as [Hle | Hgt].
    + constructor; [now constructor |].
      constructor; [assumption |].
      eapply Forall_impl; [| exact Hy].
      unfold key_le. intros z Hz. lra.
    + constructor; [assumption |].
      rewrite Forall_forall in *. intros z Hz.
      apply (Permutation_in _ (insert_by_key_perm x l)) in Hz.
      destruct Hz as [<- | Hz]; [unfold key_le; lra | now apply Hy].
Qed.

Lemma sorted_sorted (l : list A) : StronglySorted (key_le key) (sorted l key).
Proof.
  induction l as [| x l IH]; unfold sorted in *; simpl.
  - constructor.
  - now apply insert_by_key_sorted.
Qed.

Lemma firstn_In (n : nat) (l : list A) (x : A) : In x (firstn n l) -> In x l.
Proof.
  intros H. rewrite <- (firstn_skipn n l). apply in_or_app. now left.
Qed.

Lemma StronglySorted_firstn (P : A -> A -> Prop) (n : nat) (l : list A) :
  StronglySorted P l -> StronglySorted P (firstn n l).
Proof.
  revert n. induction l as [| x l IH]; intros n H.
  - rewrite firstn_nil. constructor.
  - destruct n as [| n]; simpl; [constructor |].
    inversion H; subst. constructor; [now apply IH |].
    rewrite Forall_forall in *. intros z Hz.
    match goal with Hall : forall _, In _ l -> _ |- _ => apply Hall end.
    eapply firstn_In; eassumption.
Qed.

Lemma StronglySorted_weaken (P Q : A -> A -> Prop) (l : list A) :
  (forall a b, P a b -> Q a b) -> StronglySorted P l -> StronglySorted Q l.
Proof.
  intros HPQ. induction 1 as [| x l _ IH Hx]; constructor; [assumption |].
  eapply Forall_impl; [| exact Hx]. auto.
Qed.

Lemma slice_to_sorted (P : A -> A -> Prop) (n : Z) (l : list A) :
  StronglySorted P l -> StronglySorted P (slice_to l n).
Proof.
  intros H. unfold slice_to. destruct (n <? 0)%Z; now apply StronglySorted_firstn.
Qed.

Lemma slice_to_In (n : Z) (l : list A) (x : A) : In x (slice_to l n) -> In x l.
Proof.
  unfold slice_to. destruct (n <? 0)%Z; intros H; eapply firstn_In; eassumption.
Qed.

Lemma slice_to_length (n : Z) (l : list A) :
  (0 <= n)%Z ->
  List.length (slice_to l n) = Nat.min (Z.to_nat n) (List.length l).
Proof.
  intros Hn. unfold slice_to.
  destruct (Z.ltb_spec n 0); [lia |]. apply length_firstn.
Qed.

End Sorting.

(** ** most_similar *)

Section MostSimilarProperties.

Variable intersection : LevenshteinAutomaton -> Trie -> list (Z * string).
Variable self : LevenshteinSimilarityIndex.
Variable t1 : string.

Lemma most_similar_returns (topn : Z) (res : list (string * R)) :
  most_similar intersection self t1 topn = Returns res ->
  exists sims kept,
    similarities intersection self t1 = Returns sims /\
    keep_positive sims = Returns kept /\
    res = slice_to (sorted kept (fun item => - snd item)) topn.
Proof.
  unfold most_similar. intros H.
  apply bind_returns in H as (sims & Hs & H).
  apply bind_returns in H as (kept & Hk & H).
  inversion H. eauto.
Qed.

Lemma similarities_In (sims : list (number * string)) (sim : number)
  (t2 : string) :
  similarities intersection self t1 = Returns sims -> In (sim, t2) sims ->
  exists error, In (error, t2) (matches intersection self t1) /\
                match_score self t1 error t2 = Returns sim.
Proof.
  unfold similarities. intros H Hin.
  destruct (comprehension_In _ _ _ _ H Hin) as ([error t2'] & Hx & Hf).
  apply bind_returns in Hf as (sim' & Hsim & Hf).
  inversion Hf; subst. exists error. split; assumption.
Qed.

Lemma keep_positive_In (sims : list (number * string))
  (kept : list (string * R)) (t2 : string) (r : R) :
  keep_positive sims = Returns kept -> In (t2, r) kept ->
  In (Real r, t2) sims /\ 0 < r.
Proof.
  unfold keep_positive. intros H Hin.
  destruct (comprehension_if_In _ _ _ _ H Hin) as ([sim t2'] & Hx & Hf).
  destruct sim as [r' |]; simpl in Hf; [| discriminate].
  destruct (Rlt_dec 0 r'); inversion Hf; subst. split; assumption.
Qed.

Lemma matches_not_query (error : Z) (t2 : string) :
  In (error, t2) (matches intersection self t1) -> t1 <> t2.
Proof.
  unfold matches. intros H. apply filter_In in H as [_ H].
  apply negb_true_iff in H. now apply String.eqb_neq.
Qed.

(** Every returned pair is a match with the score [levsim] gives it. *)
Lemma most_similar_In (topn : Z) (res : list (string * R)) (t2 : string)
  (r : R) :
  most_similar intersection self t1 topn = Returns res -> In (t2, r) res ->
  exists error, In (error, t2) (matches intersection self t1) /\
                match_score self t1 error t2 = Returns (Real r) /\ 0 < r.
Proof.
  intros H Hin.
  apply most_similar_returns in H as (sims & kept & Hs & Hk & ->).
  apply slice_to_In in Hin.
  apply (Permutation_in _ (sorted_perm _ kept)) in Hin.
  destruct (keep_positive_In _ _ _ _ Hk Hin) as [Hin' Hr].
  destruct (similarities_In _ _ _ Hs Hin') as (error & He & Hsc).
  eauto.
Qed.

(** C5: whatever the traversal yields, no pair that [most_similar]
    returns for a query [t1] has [t1] as its term. *)
Theorem most_similar_excludes_query (topn : Z) (res : list (string * R)) :
  most_similar intersection self t1 topn = Returns res ->
  Forall (fun item => fst item <> t1) res.
Proof.
  intros H. apply Forall_forall. intros [t2 r] Hin. simpl.
  destruct (most_similar_In _ _ _ _ H Hin) as (error & He & _).
  apply matches_not_query in He. congruence.
Qed.

(** C7: the pairs [most_similar] returns are in descending order of their
    similarity: each pair's score is at least the score of every pair
    after it. *)
Theorem most_similar_descending (topn : Z) (res : list (string * R)) :
  most_similar intersection self t1 topn = Returns res ->
  StronglySorted (fun a b => snd a >= snd b) res.
Proof.
  intros H. apply most_similar_returns in H as (sims & kept & _ & _ & ->).
  apply slice_to_sorted.
  eapply StronglySorted_weaken; [| apply sorted_sorted].
  unfold key_le. intros a b Hab. lra.
Qed.

Lemma keep_positive_length (l : list (Z * string))
  (sims : list (number * string)) (kept : list (string * R)) :
  comprehension
    (fun '(error, t2) => sim <- match_score self t1 error t2 ;; Returns (sim, t2)) l
  = Returns sims ->
  keep_positive sims = Returns kept ->
  List.length kept
  = List.length (filter (fun '(error, t2) => positive_score (match_score self t1 error t2)) l).
Proof.
  revert sims kept. induction l as [| [error t2] l IH]; intros sims kept Hs Hk.
  - inversion Hs; subst. inversion Hk. reflexivity.
  - apply comprehension_cons in Hs as ([sim t2'] & sims' & Hy & Hs & ->).
    apply bind_returns in Hy as (sim' & Hsim & Hy). inversion Hy; subst.
    unfold keep_positive in Hk.
    apply comprehension_if_cons in Hk as (o & kept' & Ho & Hk & ->).
    specialize (IH _ _ Hs Hk). simpl. rewrite Hsim. simpl.
    destruct sim as [r |]; simpl in Ho; [| discriminate].
    inversion Ho; subst. destruct (Rlt_dec 0 r); simpl; now rewrite IH.
Qed.

(** C6: for a non-negative [topn], [most_similar] returns
    [min(topn, number of matches with a positive similarity)] pairs, the
    matches being the terms the traversal yields other than the query. *)
Theorem most_similar_length (topn : Z) (res : list (string * R)) :
  (0 <= topn)%Z ->
  most_similar intersection self t1 topn = Returns res ->
  List.length res
  = Nat.min (Z.to_nat topn) (positive_matches intersection self t1).
Proof.
  intros Hn H. apply most_similar_returns in H as (sims & kept & Hs & Hk & ->).
  rewrite slice_to_length, sorted_length by assumption.
  f_equal. unfold positive_matches. eapply keep_positive_length; eassumption.
Qed.

End MostSimilarProperties.

(** ** The index on concrete vocabularies *)

Lemma py_pow_int_exponent (x : R) (n : nat) :
  0 < x -> (0 < n)%nat -> py_pow x (IZR (Z.of_nat n)) = Returns (Real (x ^ n)).
Proof. intros Hx Hn. rewrite <- INR_IZR_INZ. now apply py_pow_nat. Qed.

Lemma cat_index_matches :
  matches intersection_by_distance cat_index "cat"
  = [(1%Z, "cats"); (1%Z, "bat")].
Proof. reflexivity. Qed.

Lemma filter_Permutation {A : Type} (f : A -> bool) (l l' : list A) :
  Permutation l l' -> Permutation (filter f l) (filter f l').
Proof.
  induction 1 as [| x l l' _ IH | x y l | l l' l'' _ IH1 _ IH2]; simpl.
  - constructor.
  - destruct (f x); [now constructor | assumption].
  - destruct (f x), (f y); try reflexivity. apply perm_swap.
  - now transitivity (filter f l').
Qed.

Lemma keep_positive_cons_real (r : R) (t2 : string)
  (sims : list (number * string)) :
  0 < r ->
  keep_positive ((Real r, t2) :: sims)
  = (kept <- keep_positive sims ;; Returns ((t2, r) :: kept)).
Proof.
  intros Hr. unfold keep_positive. cbn [comprehension_if bind].
  destruct (Rlt_dec 0 r); [reflexivity | contradiction].
Qed.

Lemma cat_cats_score (m : R) :
  levsim "cat" "cats" (18 / 10) 5 m (Some 1%Z) = Returns (Real (2187 / 5120)).
Proof.
  rewrite levsim_supplied by (simpl; lra || lia).
  change (INR (Nat.max (String.length "cat") (String.length "cats"))) with (INR 4).
  replace (INR 4) with 4 by (simpl; lra).
  rewrite (py_pow_int_exponent _ 5) by (lra || lia).
  cbn [bind py_mul]. do 2 f_equal. simpl. lra.
Qed.

Lemma cat_bat_score (m : R) :
  levsim "cat" "bat" (18 / 10) 5 m (Some 1%Z) = Returns (Real (32 / 135)).
Proof.
  rewrite levsim_supplied by (simpl; lra || lia).
  change (INR (Nat.max (String.length "cat") (String.length "bat"))) with (INR 3).
  replace (INR 3) with 3 by (simpl; lra).
  rewrite (py_pow_int_exponent _ 5) by (lra || lia).
  cbn [bind py_mul]. do 2 f_equal. simpl. lra.
Qed.

(** The scenario's result does not depend on the order in which the
    traversal yields its matches. *)
Lemma cat_index_most_similar_any_order
  (intersection : LevenshteinAutomaton -> Trie -> list (Z * string)) :
  Permutation
    (intersection (query_automaton cat_index "cat") (trie cat_index))
    (intersection_by_distance (query_automaton cat_index "cat") (trie cat_index)) ->
  most_similar intersection cat_index "cat" 10
  = Returns [("cats", 2187 / 5120); ("bat", 32 / 135)].
Proof.
  intros Hperm.
  apply (filter_Permutation (fun '(_, t2) => negb (String.eqb "cat" t2))) in Hperm.
  change (Permutation (matches intersection cat_index "cat")
            (matches intersection_by_distance cat_index "cat")) in Hperm.
  rewrite cat_index_matches in Hperm.
  apply Permutation_sym, Permutation_length_2_inv in Hperm.
  unfold most_similar, similarities.
  change (filter _ _) with (matches intersection cat_index "cat").
  change (alpha cat_index) with (18 / 10).
  change (beta cat_index) with 5.
  destruct Hperm as [-> | ->]; cbn [comprehension];
    rewrite cat_cats_score, cat_bat_score; cbn [bind];
    rewrite !keep_positive_cons_real by lra;
    cbn [keep_positive comprehension_if bind];
    unfold sorted; cbn [fold_right insert_by_key snd].
  - destruct (Rle_dec (- (2187 / 5120)) (- (32 / 135))); [| exfalso; lra].
    reflexivity.
  - destruct (Rle_dec (- (32 / 135)) (- (2187 / 5120))); [exfalso; lra |].
    reflexivity.
Qed.

Lemma cat_index_most_similar :
  most_similar intersection_by_distance cat_index "cat" 10
  = Returns [("cats", 2187 / 5120); ("bat", 32 / 135)].
Proof. apply cat_index_most_similar_any_order. reflexivity. Qed.

Lemma most_similar_excludes_query_witness :
  Forall (fun item : string * R => fst item <> "cat")
    [("cats", 2187 / 5120); ("bat", 32 / 135)].
Proof.
  exact (most_similar_excludes_query intersection_by_distance cat_index "cat"
           10 _ cat_index_most_similar).
Defined.

Lemma most_similar_descending_witness :
  StronglySorted (fun a b : string * R => snd a >= snd b)
    [("cats", 2187 / 5120); ("bat", 32 / 135)].
Proof.
  exact (most_similar_descending intersection_by_distance cat_index "cat"
           10 _ cat_index_most_similar).
Defined.

Lemma most_similar_length_witness :
  List.length [("cats", 2187 / 5120); ("bat", 32 / 135)]
  = Nat.min (Z.to_nat 10)
      (positive_matches intersection_by_distance cat_index "cat").
Proof.
  apply (most_similar_length intersection_by_distance cat_index "cat" 10);
    [lia | exact cat_index_most_similar].
Defined.

Lemma Rabs_lt_between (x c e : R) : c - e < x < c + e -> Rabs (x - c) < e.
Proof. intros H. unfold Rabs. destruct (Rcase_abs (x - c)); lra. Qed.

Lemma Rabs_gt_above (x c e : R) : c + e < x -> e < Rabs (x - c).
Proof. intros H. unfold Rabs. destruct (Rcase_abs (x - c)); lra. Qed.

(** C4, the claim as stated fails: in the scenario [most_similar("cat", 10)]
    returns "cats" with the score [1.8 * (1 - 1/4)^5] and "bat" with the
    score [1.8 * (1 - 1/3)^5], and these are not the printed 0.4269 and
    0.1580: the first is off by more than 0.0002 and the second by more than
    0.07. *)
Lemma cat_scenario_scores_differ :
  exists s_cats s_bat,
    most_similar intersection_by_distance cat_index "cat" 10
    = Returns [("cats", s_cats); ("bat", s_bat)] /\
    s_cats = 18 / 10 * (1 - 1 / 4) ^ 5 /\
    s_bat = 18 / 10 * (1 - 1 / 3) ^ 5 /\
    2 / 10000 < Rabs (s_cats - 4269 / 10000) /\
    7 / 100 < Rabs (s_bat - 1580 / 10000).
Proof.
  exists (2187 / 5120), (32 / 135).
  split; [exact cat_index_most_similar |].
  split; [simpl; lra |]. split; [simpl; lra |].
  split; apply Rabs_gt_above; lra.
Qed.

(** C4, amended: with the vocabulary {"cat", "cats", "bat", "dog"}, the
    query "cat", [max_distance = 1], threshold 0 and the defaults
    [alpha = 1.8], [beta = 5.0], in whatever order the traversal yields the
    terms within distance 1, [most_similar("cat", 10)] returns
    [[("cats", 1.8 * (1 - 1/4)^5), ("bat", 1.8 * (1 - 1/3)^5)]], where
    [1.8 * (1 - 1/4)^5 = 0.4271] and [1.8 * (1 - 1/3)^5 = 0.2370] to four
    decimal places. *)
Theorem cat_scenario
  (intersection : LevenshteinAutomaton -> Trie -> list (Z * string)) :
  Permutation
    (intersection (query_automaton cat_index "cat") (trie cat_index))
    (intersection_by_distance (query_automaton cat_index "cat") (trie cat_index)) ->
  most_similar intersection cat_index "cat" 10
  = Returns [("cats", 18 / 10 * (1 - 1 / 4) ^ 5);
             ("bat", 18 / 10 * (1 - 1 / 3) ^ 5)] /\
  Rabs (18 / 10 * (1 - 1 / 4) ^ 5 - 4271 / 10000) < 1 / 20000 /\
  Rabs (18 / 10 * (1 - 1 / 3) ^ 5 - 2370 / 10000) < 1 / 20000.
Proof.
  intros Hperm.
  replace (18 / 10 * (1 - 1 / 4) ^ 5) with (2187 / 5120) by (simpl; lra).
  replace (18 / 10 * (1 - 1 / 3) ^ 5) with (32 / 135) by (simpl; lra).
  split; [now apply cat_index_most_similar_any_order |].
  split; apply Rabs_lt_between; lra.
Qed.

Lemma cat_scenario_witness :
  most_similar intersection_by_distance cat_index "cat" 10
  = Returns [("cats", 18 / 10 * (1 - 1 / 4) ^ 5);
             ("bat", 18 / 10 * (1 - 1 / 3) ^ 5)] /\
  Rabs (18 / 10 * (1 - 1 / 4) ^ 5 - 4271 / 10000) < 1 / 20000 /\
  Rabs (18 / 10 * (1 - 1 / 3) ^ 5 - 2370 / 10000) < 1 / 20000.
Proof.
  apply (cat_scenario intersection_by_distance). apply Permutation_refl.
Defined.

(** With [alpha = beta = 1] a threshold of 1 leaves no distance at all. *)
Lemma unit_threshold_bound (max_lengths : nat) :
  max_distance_for_threshold max_lengths 1 1 1 = Returns 0%Z.
Proof.
  rewrite max_distance_for_threshold_value by lra.
  rewrite clamp_similarity_id by lra. unfold inversion_root.
  destruct (Req_EM_T (1 / 1) 0); [lra |].
  replace (1 / 1) with 1 by field. rewrite Rpower_1 by lra.
  replace (INR max_lengths * (1 - 1)) with (IZR 0) by lra.
  now rewrite Int_part_IZR.
Qed.

(** C3, at the failing input: for the index over {"cat", "cats"} with
    [alpha = beta = threshold = 1] and [max_distance = 2], the bound derived
    from the threshold is 0 for every length, yet the automaton of a query
    is built for distance 2, and [most_similar("cat", 10)] returns "cats"
    at distance 1 with the similarity 3/4, below the threshold. *)
Theorem most_similar_ignores_threshold :
  (forall max_lengths,
     max_distance_for_threshold max_lengths (alpha strict_index)
       (beta strict_index) (threshold strict_index) = Returns 0%Z) /\
  automaton_max_distance (query_automaton strict_index "cat") = 2%Z /\
  most_similar intersection_by_distance strict_index "cat" 10
  = Returns [("cats", 3 / 4)] /\
  3 / 4 < threshold strict_index.
Proof.
  split; [| split; [reflexivity | split; [| simpl; lra]]].
  - intros n. apply unit_threshold_bound.
  - unfold most_similar, similarities.
    change (filter _ _) with [(1%Z, "cats")].
    change (alpha strict_index) with 1.
    change (beta strict_index) with (IZR (Z.of_nat 1)).
    cbn [comprehension].
    rewrite levsim_supplied by (simpl; lra || lia).
    change (INR (Nat.max (String.length "cat") (String.length "cats"))) with (INR 4).
    replace (INR 4) with 4 by (simpl; lra).
    rewrite py_pow_int_exponent by (lra || lia).
    cbn [bind py_mul].
    replace (1 * (1 - 1 * 1 / 4) ^ 1) with (3 / 4) by (simpl; lra).
    rewrite keep_positive_cons_real by lra. reflexivity.
Qed.

(** ** Further properties of levsim and most_similar *)

(** Two empty terms have similarity 1.0, whatever the distance argument. *)
Theorem levsim_empty_terms (alpha beta m : R) (d : option Z) :
  0 <= alpha -> 0 <= beta ->
  levsim "" "" alpha beta m d = Returns (Real 1).
Proof. apply levsim_empty. Qed.

Lemma levsim_empty_terms_witness :
  levsim "" "" (18 / 10) 5 0 None = Returns (Real 1).
Proof. apply (levsim_empty_terms (18 / 10) 5 0 None); lra. Defined.





Lemma distinct_terms_not_both_empty (t1 t2 : string) :
  t1 <> t2 -> Nat.max (String.length t1) (String.length t2) <> 0%nat.
Proof.
  destruct t1, t2; simpl; intros H; try lia. congruence.
Qed.

Lemma match_score_returns (self : LevenshteinSimilarityIndex) (t1 : string)
  (error : Z) (t2 : string) :
  0 < alpha self -> 0 < beta self -> t1 <> t2 ->
  within_length t1 (error, t2) ->
  exists r, match_score self t1 error t2 = Returns (Real r).
Proof.
  intros Ha Hb Hne Hw. unfold match_score, within_length in *. simpl in Hw.
  pose proof (distinct_terms_not_both_empty t1 t2 Hne) as HL.
  pose proof (max_lengths_positive t1 t2 HL) as Hl.
  rewrite levsim_supplied by assumption.
  pose proof (ratio_le_1 _ _ Hw Hl) as Hr.
  destruct (py_pow_nonneg_base
              (1 - IZR error * 1 /
                   INR (Nat.max (String.length t1) (String.length t2)))
              (beta self)) as (p & E & _); [lra | assumption |].
  rewrite E. simpl. eauto.
Qed.

Lemma keep_positive_total (sims : list (number * string)) :
  Forall (fun s => exists r, fst s = Real r) sims ->
  exists kept, keep_positive sims = Returns kept.
Proof.
  induction 1 as [| [sim t2] sims [r Hr] _ [kept IH]].
  - exists []. reflexivity.
  - simpl in Hr. subst sim. unfold keep_positive in *.
    cbn [comprehension_if bind]. rewrite IH. cbn [bind]. eauto.
Qed.

(** In the model, whose arithmetic cannot overflow: with positive [alpha]
    and [beta] and no yielded distance beyond the length of the longer of
    the two terms, [most_similar] comes to its [return]. *)
Lemma most_similar_reaches_return
  (intersection : LevenshteinAutomaton -> Trie -> list (Z * string))
  (self : LevenshteinSimilarityIndex) (t1 : string) (topn : Z) :
  0 < alpha self -> 0 < beta self ->
  Forall (within_length t1) (matches intersection self t1) ->
  exists res, most_similar intersection self t1 topn = Returns res.
Proof.
  intros Ha Hb Hw.
  assert (Hs : exists sims,
             similarities intersection self t1 = Returns sims /\
             Forall (fun s => exists r, fst s = Real r) sims).
  { unfold similarities.
    change (filter _ _) with (matches intersection self t1).
    assert (Hne : Forall (fun m => t1 <> snd m) (matches intersection self t1)).
    { apply Forall_forall. intros [e t2] Hin. simpl.
      eapply matches_not_query; eassumption. }
    induction (matches intersection self t1) as [| [e t2] l IH].
    - exists []. split; constructor.
    - inversion Hw; subst. inversion Hne; subst.
      destruct IH as (sims & Hsims & Hreal); [assumption | assumption |].
      destruct (match_score_returns self t1 e t2) as [r Hr]; try assumption.
      unfold match_score in Hr. cbn [comprehension]. rewrite Hr, Hsims.
      cbn [bind]. eexists. split; [reflexivity |].
      constructor; [simpl; eauto | assumption]. }
  destruct Hs as (sims & Hs & Hreal).
  destruct (keep_positive_total sims Hreal) as [kept Hk].
  unfold most_similar. rewrite Hs. cbn [bind]. rewrite Hk. cbn [bind]. eauto.
Qed.

(** With positive [alpha] and [beta], [most_similar] raises no
    [AssertionError], no [ZeroDivisionError] and no [TypeError], for every
    query and [topn], as long as the traversal yields no distance beyond the
    length of the longer of the two terms. *)
Theorem most_similar_raises_none_of
  (intersection : LevenshteinAutomaton -> Trie -> list (Z * string))
  (self : LevenshteinSimilarityIndex) (t1 : string) (topn : Z) :
  0 < alpha self -> 0 < beta self ->
  Forall (within_length t1) (matches intersection self t1) ->
  most_similar intersection self t1 topn <> Raises AssertionError /\
  most_similar intersection self t1 topn <> Raises ZeroDivisionError /\
  most_similar intersection self t1 topn <> Raises TypeError.
Proof.
  intros Ha Hb Hw.
  destruct (most_similar_reaches_return intersection self t1 topn Ha Hb Hw)
    as [res H].
  rewrite H. repeat split; discriminate.
Qed.

Lemma most_similar_raises_none_of_witness :
  most_similar intersection_by_distance cat_index "cat" 10
  <> Raises AssertionError /\
  most_similar intersection_by_distance cat_index "cat" 10
  <> Raises ZeroDivisionError /\
  most_similar intersection_by_distance cat_index "cat" 10 <> Raises TypeError.
Proof.
  apply (most_similar_raises_none_of intersection_by_distance cat_index "cat" 10).
  - change (0 < 18 / 10). lra.
  - change (0 < 5). lra.
  - rewrite cat_index_matches. repeat constructor; unfold within_length; simpl; lia.
Defined.

(** Every pair [most_similar] returns is a match of the query, other than
    the query, with the score [levsim] gives it for the yielded distance,
    and that score is positive. *)
Theorem most_similar_sound
  (intersection : LevenshteinAutomaton -> Trie -> list (Z * string))
  (self : LevenshteinSimilarityIndex) (t1 : string) (topn : Z)
  (res : list (string * R)) :
  most_similar intersection self t1 topn = Returns res ->
  Forall
    (fun item =>
       exists error,
         In (error, fst item) (matches intersection self t1) /\
         match_score self t1 error (fst item) = Returns (Real (snd item)) /\
         0 < snd item)
    res.
Proof.
  intros H. apply Forall_forall. intros [t2 r] Hin.
  exact (most_similar_In intersection self t1 topn res t2 r H Hin).
Qed.

Lemma most_similar_sound_witness :
  Forall
    (fun item : string * R =>
       exists error,
         In (error, fst item) (matches intersection_by_distance cat_index "cat") /\
         match_score cat_index "cat" error (fst item) = Returns (Real (snd item)) /\
         0 < snd item)
    [("cats", 2187 / 5120); ("bat", 32 / 135)].
Proof.
  exact (most_similar_sound intersection_by_distance cat_index "cat" 10 _
           cat_index_most_similar).
Defined.

(** Without a supplied distance, positive [alpha] and [beta]: when the
    Levenshtein distance of the terms exceeds the bound derived from
    [min_similarity], [levsim] returns zero (the docstring's "less than
    [min_similarity]"); otherwise it returns what it returns for the exact
    distance. *)
Theorem levsim_clips_to_zero (t1 t2 : string) (alpha beta m : R) (k : Z) :
  0 < alpha -> 0 < beta ->
  Nat.max (String.length t1) (String.length t2) <> 0%nat ->
  max_distance_for_threshold
    (Nat.max (String.length t1) (String.length t2)) alpha beta m = Returns k ->
  ((k < Z.of_nat (Levenshtein_distance t1 t2))%Z ->
   levsim t1 t2 alpha beta m None = Returns (Real 0)) /\
  ((Z.of_nat (Levenshtein_distance t1 t2) <= k)%Z ->
   levsim t1 t2 alpha beta m None
   = levsim t1 t2 alpha beta m (Some (Z.of_nat (Levenshtein_distance t1 t2)))).
Proof.
  intros Ha Hb HL Hk.
  pose proof (max_lengths_positive t1 t2 HL) as Hl.
  unfold levsim.
  destruct (Rle_dec 0 alpha); [| lra].
  destruct (Rle_dec 0 beta); [| lra].
  destruct (Nat.eqb_spec (Nat.max (String.length t1) (String.length t2)) 0);
    [contradiction |].
  rewrite Hk. cbn [bind]. unfold levdist, exceeds. split; intros Hd.
  - apply IZR_lt in Hd. rewrite <- INR_IZR_INZ in Hd.
    destruct (Rlt_dec (IZR k) (INR (Levenshtein_distance t1 t2))); [| lra].
    rewrite py_div_nonzero by lra. cbn [bind].
    rewrite <- INR_IZR_INZ.
    replace (1 - INR (Nat.max (String.length t1) (String.length t2)) * 1
                 / INR (Nat.max (String.length t1) (String.length t2)))
      with 0 by (field; lra).
    rewrite py_pow_zero_base by assumption. cbn [bind py_mul].
    do 2 f_equal. lra.
  - apply IZR_le in Hd. rewrite <- INR_IZR_INZ in Hd.
    destruct (Rlt_dec (IZR k) (INR (Levenshtein_distance t1 t2))); [lra |].
    reflexivity.
Qed.

Lemma levsim_clips_to_zero_witness :
  ((0 < Z.of_nat (Levenshtein_distance "cat" "cats"))%Z ->
   levsim "cat" "cats" 1 1 1 None = Returns (Real 0)) /\
  ((Z.of_nat (Levenshtein_distance "cat" "cats") <= 0)%Z ->
   levsim "cat" "cats" 1 1 1 None
   = levsim "cat" "cats" 1 1 1
       (Some (Z.of_nat (Levenshtein_distance "cat" "cats")))).
Proof.
  apply (levsim_clips_to_zero "cat" "cats" 1 1 1 0); try lra.
  - simpl. lia.
  - apply unit_threshold_bound.
Defined.

(** ** levdist as a distance *)

Section LevdistProperties.

Local Open Scope nat_scope.

Lemma edit_script_sym (s t : string) (n : nat) :
  edit_script s t n -> edit_script t s n.
Proof.
  induction 1; try (now constructor).
Qed.

Lemma Levenshtein_distance_sym (s t : string) :
  Levenshtein_distance s t = Levenshtein_distance t s.
Proof.
  apply Nat.le_antisymm; apply Levenshtein_distance_least, edit_script_sym,
    Levenshtein_distance_script.
Qed.

Lemma edit_script_refl (s : string) : edit_script s s 0.
Proof. induction s; now constructor. Qed.

Lemma Levenshtein_distance_refl (s : string) : Levenshtein_distance s s = 0.
Proof.
  pose proof (Levenshtein_distance_least s s 0 (edit_script_refl s)). lia.
Qed.

Lemma edit_script_zero (s t : string) (n : nat) :
  edit_script s t n -> n = 0 -> s = t.
Proof.
  induction 1; intros Hn; try discriminate; try reflexivity.
  now rewrite IHedit_script.
Qed.

Lemma Levenshtein_distance_zero (s t : string) :
  Levenshtein_distance s t = 0 -> s = t.
Proof.
  intros H. eapply edit_script_zero; [apply Levenshtein_distance_script | exact H].
Qed.

(** An edit script cannot be shorter than the difference of the lengths. *)
Lemma edit_script_length (s t : string) (n : nat) :
  edit_script s t n ->
  String.length s <= String.length t + n /\ String.length t <= String.length s + n.
Proof.
  induction 1; simpl; lia.
Qed.

Lemma levdist_bounds (t1 t2 : string) (max_distance : distance_bound) :
  Levenshtein_distance t1 t2 <= levdist t1 t2 max_distance
  <= Nat.max (String.length t1) (String.length t2).
Proof.
  pose proof (Levenshtein_distance_le_max t1 t2).
  unfold levdist. destruct (exceeds _ _); lia.
Qed.

(** Whatever [max_distance] is, [levdist] returns a number between the
    Levenshtein distance of the terms and the length of the longer term. *)
Theorem levdist_between (t1 t2 : string) (max_distance : distance_bound) :
  Levenshtein_distance t1 t2 <= levdist t1 t2 max_distance
  <= Nat.max (String.length t1) (String.length t2).
Proof. apply levdist_bounds. Qed.

(** [levdist] does not depend on the order of the two terms. *)
Theorem levdist_sym (t1 t2 : string) (max_distance : distance_bound) :
  levdist t1 t2 max_distance = levdist t2 t1 max_distance.
Proof.
  unfold levdist. rewrite (Levenshtein_distance_sym t1 t2), Nat.max_comm.
  reflexivity.
Qed.

(** Only equal terms are at distance 0, whatever [max_distance] is. *)
Theorem levdist_zero_equal (t1 t2 : string) (max_distance : distance_bound) :
  levdist t1 t2 max_distance = 0 -> t1 = t2.
Proof.
  unfold levdist. destruct (exceeds _ _); intros H.
  - destruct t1, t2; simpl in H; try lia. reflexivity.
  - now apply Levenshtein_distance_zero.
Qed.

Lemma levdist_zero_equal_witness : "cat" = "cat".
Proof.
  apply (levdist_zero_equal "cat" "cat" Infinity). reflexivity.
Defined.

(** A term is at distance 0 from itself for the default [max_distance] and
    for every [max_distance >= 0]; for a negative [max_distance] the
    distance 0 already counts as too far and [levdist] returns the term's
    length. *)
Theorem levdist_self (t : string) :
  levdist t t Infinity = 0 /\
  (forall r, (0 <= r)%R -> levdist t t (Finite r) = 0) /\
  (forall r, (r < 0)%R -> levdist t t (Finite r) = String.length t).
Proof.
  unfold levdist, exceeds. rewrite Levenshtein_distance_refl. simpl.
  repeat split; intros r Hr.
  - destruct (Rlt_dec r 0); [lra | reflexivity].
  - destruct (Rlt_dec r 0); [apply Nat.max_id | lra].
Qed.

(** Whatever [max_distance] is, [levdist] returns at least the difference
    of the lengths of the two terms. *)
Theorem levdist_length_difference (t1 t2 : string)
  (max_distance : distance_bound) :
  String.length t1 - String.length t2 <= levdist t1 t2 max_distance /\
  String.length t2 - String.length t1 <= levdist t1 t2 max_distance.
Proof.
  pose proof (levdist_bounds t1 t2 max_distance) as [Hlo _].
  pose proof (edit_script_length _ _ _ (Levenshtein_distance_script t1 t2)).
  lia.
Qed.

End LevdistProperties.

(** ** The outcomes of levsim *)

Lemma py_pow_positive_exponent (b beta : R) :
  0 < beta -> exists v, py_pow b beta = Returns v.
Proof.
  intros Hb. unfold py_pow.
  destruct (Req_EM_T beta 0); [lra |].
  destruct (Req_EM_T b 0); [destruct (Rlt_dec beta 0); [lra | eauto] |].
  destruct (Rlt_dec 0 b); [eauto |].
  destruct (Req_EM_T beta (IZR (Int_part beta))); eauto.
Qed.

Lemma levsim_negative_factor (t1 t2 : string) (alpha beta m : R)
  (d : option Z) :
  alpha < 0 \/ beta < 0 -> levsim t1 t2 alpha beta m d = Raises AssertionError.
Proof.
  intros H. unfold levsim.
  destruct (Rle_dec 0 alpha); [| reflexivity].
  destruct (Rle_dec 0 beta); [| reflexivity]. lra.
Qed.

Lemma levsim_no_length (t1 t2 : string) (alpha beta m : R) (d : option Z) :
  0 <= alpha -> 0 <= beta ->
  Nat.max (String.length t1) (String.length t2) = 0%nat ->
  levsim t1 t2 alpha beta m d = Returns (Real 1).
Proof.
  intros Ha Hb HL. unfold levsim.
  destruct (Rle_dec 0 alpha); [| lra].
  destruct (Rle_dec 0 beta); [| lra].
  rewrite HL. reflexivity.
Qed.

(** Without a supplied distance [levsim] scores the distance [levdist]
    returns for the derived bound. *)
Lemma levsim_unsupplied (t1 t2 : string) (alpha beta m : R) :
  0 < alpha -> 0 < beta ->
  Nat.max (String.length t1) (String.length t2) <> 0%nat ->
  levsim t1 t2 alpha beta m None
  = levsim t1 t2 alpha beta m
      (Some (Z.of_nat
               (levdist t1 t2
                  (Finite
                     (IZR (Int_part
                             (INR (Nat.max (String.length t1) (String.length t2))
                              * (1 - inversion_root alpha beta
                                       (clamp_similarity m))))))))).
Proof.
  intros Ha Hb HL. unfold levsim.
  destruct (Rle_dec 0 alpha); [| lra].
  destruct (Rle_dec 0 beta); [| lra].
  destruct (Nat.eqb_spec (Nat.max (String.length t1) (String.length t2)) 0);
    [contradiction |].
  rewrite max_distance_for_threshold_value by assumption. reflexivity.
Qed.

(** In the model, whose arithmetic cannot overflow, positive [alpha] and
    [beta] bring [levsim] to its [return]. *)
Lemma levsim_positive_returns (t1 t2 : string) (alpha beta m : R)
  (d : option Z) :
  0 < alpha -> 0 < beta -> exists v, levsim t1 t2 alpha beta m d = Returns v.
Proof.
  intros Ha Hb.
  destruct (Nat.eq_dec (Nat.max (String.length t1) (String.length t2)) 0)
    as [HL | HL].
  - rewrite levsim_no_length by (assumption || lra). eauto.
  - assert (Hs : forall z, exists v,
               levsim t1 t2 alpha beta m (Some z) = Returns v).
    { intros z. rewrite levsim_supplied by assumption.
      destruct (py_pow_positive_exponent
                  (1 - IZR z * 1
                       / INR (Nat.max (String.length t1) (String.length t2)))
                  beta Hb) as [v Hv].
      rewrite Hv. simpl. eauto. }
    destruct d as [z |]; [apply Hs |].
    rewrite levsim_unsupplied by assumption. apply Hs.
Qed.

(** [levsim] raises [ZeroDivisionError] exactly when [alpha] and [beta]
    pass the assertions, one of them is zero and the terms are not both
    empty. *)
Theorem levsim_zero_division_iff (t1 t2 : string) (alpha beta m : R)
  (d : option Z) :
  levsim t1 t2 alpha beta m d = Raises ZeroDivisionError <->
  0 <= alpha /\ 0 <= beta /\ (alpha = 0 \/ beta = 0) /\
  Nat.max (String.length t1) (String.length t2) <> 0%nat.
Proof.
  split.
  - intros H.
    destruct (Rlt_dec alpha 0) as [Ha | Ha].
    { rewrite levsim_negative_factor in H by (now left). discriminate. }
    destruct (Rlt_dec beta 0) as [Hb | Hb].
    { rewrite levsim_negative_factor in H by (now right). discriminate. }
    destruct (Nat.eq_dec (Nat.max (String.length t1) (String.length t2)) 0)
      as [HL | HL].
    { rewrite levsim_no_length in H by (assumption || lra). discriminate. }
    destruct (Req_EM_T alpha 0) as [Ha0 | Ha0]; [repeat split; auto; lra |].
    destruct (Req_EM_T beta 0) as [Hb0 | Hb0]; [repeat split; auto; lra |].
    destruct (levsim_positive_returns t1 t2 alpha beta m d) as [v Hv]; try lra.
    rewrite Hv in H. discriminate.
  - intros (Ha & Hb & [-> | ->] & HL).
    + now apply levsim_zero_alpha.
    + now apply levsim_zero_beta.
Qed.

(** [levsim] returns a value only if [alpha] and [beta] are both positive,
    or neither is negative and both terms are empty. *)
Theorem levsim_returns_only_if (t1 t2 : string) (alpha beta m : R)
  (d : option Z) (v : number) :
  levsim t1 t2 alpha beta m d = Returns v ->
  (0 < alpha /\ 0 < beta) \/
  (0 <= alpha /\ 0 <= beta /\
   Nat.max (String.length t1) (String.length t2) = 0%nat).
Proof.
  intros H.
  destruct (Rlt_dec alpha 0) as [Ha | Ha].
  { rewrite levsim_negative_factor in H by (now left). discriminate. }
  destruct (Rlt_dec beta 0) as [Hb | Hb].
  { rewrite levsim_negative_factor in H by (now right). discriminate. }
  destruct (Nat.eq_dec (Nat.max (String.length t1) (String.length t2)) 0)
    as [HL | HL]; [right; repeat split; auto; lra |].
  destruct (Req_EM_T alpha 0) as [Ha0 | Ha0].
  { subst. rewrite levsim_zero_alpha in H by (assumption || lra). discriminate. }
  destruct (Req_EM_T beta 0) as [Hb0 | Hb0].
  { subst. rewrite levsim_zero_beta in H by (assumption || lra). discriminate. }
  left. lra.
Qed.

Lemma levsim_returns_only_if_witness :
  (0 < 18 / 10 /\ 0 < 5) \/
  (0 <= 18 / 10 /\ 0 <= 5 /\
   Nat.max (String.length "cat") (String.length "cats") = 0%nat).
Proof.
  exact (levsim_returns_only_if "cat" "cats" (18 / 10) 5 0 (Some 1%Z) _
           (cat_cats_score 0)).
Defined.

(** In the model, whose arithmetic cannot overflow, a supplied distance
    makes [min_similarity] irrelevant altogether. *)
Lemma levsim_supplied_any_min_similarity (t1 t2 : string)
  (alpha beta m m' : R) (d : Z) :
  levsim t1 t2 alpha beta m (Some d) = levsim t1 t2 alpha beta m' (Some d).
Proof.
  destruct (Rlt_dec alpha 0) as [Ha | Ha].
  { rewrite !levsim_negative_factor by (now left). reflexivity. }
  destruct (Rlt_dec beta 0) as [Hb | Hb].
  { rewrite !levsim_negative_factor by (now right). reflexivity. }
  destruct (Nat.eq_dec (Nat.max (String.length t1) (String.length t2)) 0)
    as [HL | HL].
  { rewrite !levsim_no_length by (assumption || lra). reflexivity. }
  destruct (Req_EM_T alpha 0) as [Ha0 | Ha0].
  { subst. rewrite !levsim_zero_alpha by (assumption || lra). reflexivity. }
  destruct (Req_EM_T beta 0) as [Hb0 | Hb0].
  { subst. rewrite !levsim_zero_beta by (assumption || lra). reflexivity. }
  rewrite !levsim_supplied by (assumption || lra). reflexivity.
Qed.

(** With a supplied distance [min_similarity] does not decide what
    [levsim] returns: for two values of [min_similarity] the calls raise
    [AssertionError] together, raise [ZeroDivisionError] together, and when
    both return they return the same similarity. *)
Theorem levsim_supplied_same_for_min_similarity (t1 t2 : string)
  (alpha beta m m' : R) (d : Z) :
  (levsim t1 t2 alpha beta m (Some d) = Raises AssertionError <->
   levsim t1 t2 alpha beta m' (Some d) = Raises AssertionError) /\
  (levsim t1 t2 alpha beta m (Some d) = Raises ZeroDivisionError <->
   levsim t1 t2 alpha beta m' (Some d) = Raises ZeroDivisionError) /\
  (forall v v',
     levsim t1 t2 alpha beta m (Some d) = Returns v ->
     levsim t1 t2 alpha beta m' (Some d) = Returns v' -> v = v').
Proof.
  rewrite (levsim_supplied_any_min_similarity t1 t2 alpha beta m m' d).
  repeat split; try tauto.
  intros v v' H H'. congruence.
Qed.

(** [levsim] does not depend on the order of the two terms. *)
Theorem levsim_sym (t1 t2 : string) (alpha beta m : R) (d : option Z) :
  levsim t1 t2 alpha beta m d = levsim t2 t1 alpha beta m d.
Proof.
  unfold levsim, levdist.
  rewrite (Nat.max_comm (String.length t2)), (Levenshtein_distance_sym t2 t1).
  reflexivity.
Qed.

(** ** The range of levsim and the meaning of min_similarity *)





Lemma cat_cats_unit_score :
  levsim "cat" "cats" 1 1 1 (Some 1%Z) = Returns (Real (3 / 4)).
Proof.
  rewrite levsim_supplied by (simpl; lra || lia).
  change (INR (Nat.max (String.length "cat") (String.length "cats"))) with (INR 4).
  replace (INR 4) with 4 by (simpl; lra).
  rewrite (py_pow_int_exponent _ 1) by (lra || lia).
  cbn [bind py_mul]. do 2 f_equal. simpl. lra.
Qed.

Lemma cat_cats_unit_clipped :
  levsim "cat" "cats" 1 1 1 None = Returns (Real 0).
Proof.
  unfold levsim.
  destruct (Rle_dec 0 1); [| lra].
  change (Nat.max (String.length "cat") (String.length "cats")) with 4%nat.
  cbn [Nat.eqb]. rewrite unit_threshold_bound. cbn [bind].
  unfold levdist, exceeds.
  destruct (Rlt_dec (IZR 0) (INR (Levenshtein_distance "cat" "cats")))
    as [_ | H]; [| exfalso; apply H; simpl; lra].
  change (Nat.max (String.length "cat") (String.length "cats")) with 4%nat.
  rewrite py_div_nonzero by (simpl; lra). cbn [bind].
  replace (1 - IZR (Z.of_nat 4) * 1 / INR 4) with 0 by (simpl; field).
  rewrite py_pow_zero_base by lra. cbn [bind py_mul]. do 2 f_equal. lra.
Qed.

(** A [min_similarity] can only turn the result into 0: when [levsim]
    without a supplied distance returns, it returns either 0 or what it
    returns for the Levenshtein distance of the two terms. *)
Theorem levsim_exact_or_zero (t1 t2 : string) (alpha beta m : R)
  (v v' : number) :
  levsim t1 t2 alpha beta m None = Returns v ->
  levsim t1 t2 alpha beta m
    (Some (Z.of_nat (Levenshtein_distance t1 t2))) = Returns v' ->
  v = v' \/ v = Real 0.
Proof.
  intros H H'.
  destruct (Rlt_dec alpha 0) as [Ha | Ha].
  { rewrite levsim_negative_factor in H by (now left). discriminate. }
  destruct (Rlt_dec beta 0) as [Hb | Hb].
  { rewrite levsim_negative_factor in H by (now right). discriminate. }
  destruct (Nat.eq_dec (Nat.max (String.length t1) (String.length t2)) 0)
    as [HL | HL].
  { rewrite levsim_no_length in H, H' by (assumption || lra).
    left. congruence. }
  destruct (Req_EM_T alpha 0) as [Ha0 | Ha0].
  { subst. rewrite levsim_zero_alpha in H by (assumption || lra). discriminate. }
  destruct (Req_EM_T beta 0) as [Hb0 | Hb0].
  { subst. rewrite levsim_zero_beta in H by (assumption || lra). discriminate. }
  assert (Hapos : 0 < alpha) by lra. assert (Hbpos : 0 < beta) by lra.
  pose proof (max_lengths_positive t1 t2 HL) as Hl.
  rewrite levsim_unsupplied in H by assumption.
  unfold levdist in H. destruct (exceeds _ _).
  - right. rewrite levsim_supplied in H by assumption.
    rewrite <- INR_IZR_INZ in H.
    replace (1 - INR (Nat.max (String.length t1) (String.length t2)) * 1
                 / INR (Nat.max (String.length t1) (String.length t2)))
      with 0 in H by (field; lra).
    rewrite py_pow_zero_base in H by assumption. cbn [bind py_mul] in H.
    inversion H. f_equal. lra.
  - left. congruence.
Qed.

Lemma levsim_exact_or_zero_witness : Real 0 = Real (3 / 4) \/ Real 0 = Real 0.
Proof.
  exact (levsim_exact_or_zero "cat" "cats" 1 1 1 _ _
           cat_cats_unit_clipped cat_cats_unit_score).
Defined.

(** ** What most_similar returns and when it raises *)

Lemma comprehension_ext {A B : Type} (f g : A -> outcome B) (l : list A) :
  (forall x, In x l -> f x = g x) -> comprehension f l = comprehension g l.
Proof.
  induction l as [| x l IH]; intros H; simpl; [reflexivity |].
  rewrite (H x) by (now left). rewrite IH; [reflexivity |].
  intros y Hy. apply H. now right.
Qed.

Lemma comprehension_raises {A B : Type} (f : A -> outcome B) (l : list A)
  (e : exn) :
  comprehension f l = Raises e -> exists x, In x l /\ f x = Raises e.
Proof.
  induction l as [| x l IH]; simpl; [discriminate |].
  destruct (f x) as [y | e'] eqn:Hx; simpl.
  - destruct (comprehension f l) as [ys | e'']; simpl; [discriminate |].
    intros H. destruct IH as (x' & Hin & Hx'); [assumption |].
    exists x'. split; [now right | assumption].
  - intros H. inversion H; subst. exists x. split; [now left | assumption].
Qed.

Lemma keep_positive_raises (sims : list (number * string)) (e : exn) :
  keep_positive sims = Raises e -> e = TypeError.
Proof.
  unfold keep_positive. induction sims as [| [sim t2] sims IH]; simpl;
    [discriminate |].
  destruct sim as [r |]; simpl.
  - destruct (comprehension_if _ sims) as [ys | e']; simpl; [discriminate |].
    intros H. inversion H; subst. now apply IH.
  - intros H. now inversion H.
Qed.

Lemma levsim_assertion_negative (t1 t2 : string) (alpha beta m : R)
  (d : option Z) :
  levsim t1 t2 alpha beta m d = Raises AssertionError -> alpha < 0 \/ beta < 0.
Proof.
  intros H.
  destruct (Rlt_dec alpha 0) as [Ha | Ha]; [now left |].
  destruct (Rlt_dec beta 0) as [Hb | Hb]; [now right |]. exfalso.
  destruct (Nat.eq_dec (Nat.max (String.length t1) (String.length t2)) 0)
    as [HL | HL].
  { rewrite levsim_no_length in H by (assumption || lra). discriminate. }
  destruct (Req_EM_T alpha 0) as [Ha0 | Ha0].
  { subst. rewrite levsim_zero_alpha in H by (assumption || lra). discriminate. }
  destruct (Req_EM_T beta 0) as [Hb0 | Hb0].
  { subst. rewrite levsim_zero_beta in H by (assumption || lra). discriminate. }
  destruct (levsim_positive_returns t1 t2 alpha beta m d) as [v Hv]; try lra.
  rewrite Hv in H. discriminate.
Qed.

Lemma levsim_zero_division_factor (t1 t2 : string) (alpha beta m : R)
  (d : option Z) :
  levsim t1 t2 alpha beta m d = Raises ZeroDivisionError ->
  0 <= alpha /\ 0 <= beta /\ (alpha = 0 \/ beta = 0).
Proof.
  intros H.
  destruct (Rlt_dec alpha 0) as [Ha | Ha].
  { rewrite levsim_negative_factor in H by (now left). discriminate. }
  destruct (Rlt_dec beta 0) as [Hb | Hb].
  { rewrite levsim_negative_factor in H by (now right). discriminate. }
  destruct (Req_EM_T alpha 0) as [Ha0 | Ha0]; [repeat split; auto; lra |].
  destruct (Req_EM_T beta 0) as [Hb0 | Hb0]; [repeat split; auto; lra |].
  destruct (levsim_positive_returns t1 t2 alpha beta m d) as [v Hv]; try lra.
  rewrite Hv in H. discriminate.
Qed.

Section MostSimilarOutcomes.

Variable intersection : LevenshteinAutomaton -> Trie -> list (Z * string).
Variable self : LevenshteinSimilarityIndex.
Variable t1 : string.

Lemma similarities_as_matches :
  similarities intersection self t1
  = comprehension
      (fun '(error, t2) =>
         sim <- match_score self t1 error t2 ;; Returns (sim, t2))
      (matches intersection self t1).
Proof. reflexivity. Qed.

Lemma most_similar_raises (topn : Z) (e : exn) :
  most_similar intersection self t1 topn = Raises e ->
  e = TypeError \/
  exists error t2, In (error, t2) (matches intersection self t1) /\
                   match_score self t1 error t2 = Raises e.
Proof.
  unfold most_similar. rewrite similarities_as_matches.
  destruct (comprehension _ _) as [sims | e'] eqn:Hs; simpl.
  - destruct (keep_positive sims) as [kept | e''] eqn:Hk; simpl; [discriminate |].
    intros H. inversion H; subst. left. eapply keep_positive_raises; eassumption.
  - intros H. inversion H; subst.
    apply comprehension_raises in Hs as ([error t2] & Hin & Hx).
    right. exists error, t2. split; [assumption |].
    destruct (match_score self t1 error t2); simpl in Hx;
      [discriminate Hx | now inversion Hx].
Qed.

Lemma most_similar_first_raises (topn : Z) (e : exn) :
  (forall error t2, In (error, t2) (matches intersection self t1) ->
                    match_score self t1 error t2 = Raises e) ->
  matches intersection self t1 <> [] ->
  most_similar intersection self t1 topn = Raises e.
Proof.
  intros Hall Hne. unfold most_similar. rewrite similarities_as_matches.
  destruct (matches intersection self t1) as [| [error t2] l];
    [contradiction |].
  simpl. rewrite (Hall error t2) by (now left). reflexivity.
Qed.

(** Neither the constructor nor a query without matches checks [alpha] and
    [beta]: [most_similar] raises [AssertionError] exactly when [alpha] or
    [beta] is negative and the traversal yields a term other than the query,
    and [ZeroDivisionError] exactly when neither is negative, one of them is
    zero and the traversal yields a term other than the query. *)
Theorem most_similar_raises_iff (topn : Z) :
  (most_similar intersection self t1 topn = Raises AssertionError <->
   (alpha self < 0 \/ beta self < 0) /\ matches intersection self t1 <> []) /\
  (most_similar intersection self t1 topn = Raises ZeroDivisionError <->
   0 <= alpha self /\ 0 <= beta self /\ (alpha self = 0 \/ beta self = 0) /\
   matches intersection self t1 <> []).
Proof.
  split; split.
  - intros H. apply most_similar_raises in H as [H | (error & t2 & Hin & H)];
      [discriminate |].
    split; [eapply levsim_assertion_negative; exact H |].
    intros E. rewrite E in Hin. contradiction.
  - intros [Hneg Hne]. apply most_similar_first_raises; [| assumption].
    intros error t2 _. now apply levsim_negative_factor.
  - intros H. apply most_similar_raises in H as [H | (error & t2 & Hin & H)];
      [discriminate |].
    apply levsim_zero_division_factor in H as (Ha & Hb & Hz).
    repeat split; try assumption.
    intros E. rewrite E in Hin. contradiction.
  - intros (Ha & Hb & Hz & Hne). apply most_similar_first_raises; [| assumption].
    intros error t2 Hin. unfold match_score.
    apply matches_not_query, distinct_terms_not_both_empty in Hin.
    destruct Hz as [Hz | Hz]; rewrite Hz in *.
    + now apply levsim_zero_alpha.
    + now apply levsim_zero_beta.
Qed.

End MostSimilarOutcomes.

(** ** The result of most_similar as the best matches *)

Lemma with_score_insert (c : R) (x : string * R) (l : list (string * R)) :
  with_score c (insert_by_key (fun item => - snd item) x l)
  = with_score c (x :: l).
Proof.
  unfold with_score. induction l as [| y l IH]; [reflexivity |].
  cbn [insert_by_key].
  destruct (Rle_dec (- snd x) (- snd y)) as [Hle | Hgt]; [reflexivity |].
  cbn [filter] in *. rewrite IH.
  destruct (Req_EM_T (snd x) c), (Req_EM_T (snd y) c); try reflexivity.
  exfalso. lra.
Qed.

(** The sort keeps pairs of the same similarity in their order. *)
Lemma with_score_sorted (c : R) (l : list (string * R)) :
  with_score c (sorted l (fun item => - snd item)) = with_score c l.
Proof.
  induction l as [| x l IH]; [reflexivity |].
  unfold sorted in *. cbn [fold_right]. rewrite with_score_insert.
  unfold with_score in *. cbn [filter]. now rewrite IH.
Qed.

Lemma StronglySorted_app_inv {A : Type} (P : A -> A -> Prop) (l1 l2 : list A) :
  StronglySorted P (l1 ++ l2) -> Forall (fun x => Forall (P x) l2) l1.
Proof.
  induction l1 as [| x l1 IH]; simpl; intros H; [constructor |].
  inversion H; subst. constructor; [| now apply IH].
  rewrite Forall_forall in *. intros y Hy.
  match goal with Hall : forall _, In _ (l1 ++ l2) -> _ |- _ => apply Hall end.
  apply in_or_app. now right.
Qed.

Lemma slice_to_split {A : Type} (l : list A) (n : Z) :
  exists rest, (slice_to l n ++ rest)%list = l.
Proof.
  unfold slice_to. destruct (n <? 0)%Z; eexists; apply firstn_skipn.
Qed.

Section MostSimilarBest.

Variable intersection : LevenshteinAutomaton -> Trie -> list (Z * string).
Variable self : LevenshteinSimilarityIndex.
Variable t1 : string.

Lemma kept_scored (l : list (Z * string)) (sims : list (number * string))
  (kept : list (string * R)) :
  comprehension
    (fun '(error, t2) => sim <- match_score self t1 error t2 ;; Returns (sim, t2))
    l = Returns sims ->
  keep_positive sims = Returns kept ->
  kept
  = flat_map
      (fun '(error, t2) =>
         match match_score self t1 error t2 with
         | Returns (Real r) => if Rlt_dec 0 r then [(t2, r)] else []
         | _ => []
         end) l.
Proof.
  revert sims kept. induction l as [| [error t2] l IH]; intros sims kept Hs Hk.
  - inversion Hs; subst. inversion Hk. reflexivity.
  - apply comprehension_cons in Hs as ([sim t2'] & sims' & Hy & Hs & ->).
    apply bind_returns in Hy as (sim' & Hsim & Hy). inversion Hy; subst.
    unfold keep_positive in Hk.
    apply comprehension_if_cons in Hk as (o & kept' & Ho & Hk & ->).
    specialize (IH _ _ Hs Hk). cbn [flat_map]. rewrite Hsim.
    destruct sim as [r |]; [| discriminate].
    inversion Ho; subst. destruct (Rlt_dec 0 r); reflexivity.
Qed.

(** What [most_similar] returns: a slice of the sorted positive matches. *)
Lemma most_similar_as_slice (topn : Z) (res : list (string * R)) :
  most_similar intersection self t1 topn = Returns res ->
  res = slice_to
          (sorted (scored_matches intersection self t1) (fun item => - snd item))
          topn.
Proof.
  intros H. apply most_similar_returns in H as (sims & kept & Hs & Hk & ->).
  rewrite similarities_as_matches in Hs.
  now rewrite (kept_scored _ _ _ Hs Hk).
Qed.

Lemma scored_matches_length :
  List.length (scored_matches intersection self t1)
  = positive_matches intersection self t1.
Proof.
  unfold scored_matches, positive_matches.
  induction (matches intersection self t1) as [| [error t2] l IH];
    [reflexivity |].
  cbn [flat_map filter]. rewrite length_app, IH.
  destruct (match_score self t1 error t2) as [[r |] | e]; simpl; try reflexivity.
  destruct (Rlt_dec 0 r); reflexivity.
Qed.

(** The result is the best of the matches: together with the matches it
    leaves out it is a rearrangement of all matches with a positive
    similarity, and no returned pair has a smaller similarity than a pair
    left out. *)
Theorem most_similar_best (topn : Z) (res : list (string * R)) :
  most_similar intersection self t1 topn = Returns res ->
  exists rest,
    Permutation (res ++ rest) (scored_matches intersection self t1) /\
    Forall (fun x => Forall (fun y => snd x >= snd y) rest) res.
Proof.
  intros H. apply most_similar_as_slice in H. subst res.
  destruct (slice_to_split
              (sorted (scored_matches intersection self t1)
                 (fun item => - snd item)) topn) as [rest Hrest].
  exists rest. split.
  - rewrite Hrest. apply sorted_perm.
  - apply (StronglySorted_app_inv (fun a b : string * R => snd a >= snd b)).
    rewrite Hrest.
    eapply StronglySorted_weaken; [| apply sorted_sorted].
    unfold key_le. intros a b Hab. lra.
Qed.

(** When [topn] is at least the number of matches with a positive
    similarity, no such match is lost: the result is a rearrangement of all
    of them. *)
Theorem most_similar_complete (topn : Z) (res : list (string * R)) :
  (Z.of_nat (positive_matches intersection self t1) <= topn)%Z ->
  most_similar intersection self t1 topn = Returns res ->
  Permutation res (scored_matches intersection self t1).
Proof.
  intros Hn H. apply most_similar_as_slice in H. subst res.
  rewrite <- scored_matches_length in Hn.
  unfold slice_to. destruct (Z.ltb_spec topn 0); [lia |].
  rewrite firstn_all2 by (rewrite sorted_length; lia).
  apply sorted_perm.
Qed.

(** Matches of equal similarity come out in the order the traversal yielded
    them: for every similarity, the returned pairs that have it are a
    prefix of the matches that have it. *)
Theorem most_similar_stable (topn : Z) (res : list (string * R)) (c : R) :
  most_similar intersection self t1 topn = Returns res ->
  exists rest,
    (with_score c res ++ rest)%list
    = with_score c (scored_matches intersection self t1).
Proof.
  intros H. apply most_similar_as_slice in H. subst res.
  destruct (slice_to_split
              (sorted (scored_matches intersection self t1)
                 (fun item => - snd item)) topn) as [rest Hrest].
  exists (with_score c rest).
  rewrite <- (with_score_sorted c (scored_matches intersection self t1)).
  rewrite <- Hrest at 2. unfold with_score. now rewrite filter_app.
Qed.


End MostSimilarBest.

(** In the model, whose arithmetic cannot overflow, two indexes that
    differ only in their threshold behave alike. *)
Lemma most_similar_any_threshold
  (intersection : LevenshteinAutomaton -> Trie -> list (Z * string))
  (dictionary : list string) (alpha beta threshold threshold' : R)
  (max_distance : Z) (t1 : string) (topn : Z) :
  most_similar intersection
    (LevenshteinSimilarityIndex_init dictionary alpha beta threshold max_distance)
    t1 topn
  = most_similar intersection
      (LevenshteinSimilarityIndex_init dictionary alpha beta threshold'
         max_distance)
      t1 topn.
Proof.
  unfold most_similar, similarities. cbn.
  erewrite comprehension_ext; [reflexivity |].
  intros [error t2] _. cbn.
  now rewrite (levsim_supplied_any_min_similarity t1 t2 alpha beta
                 threshold threshold').
Qed.

(** The threshold of the index does not decide what [most_similar] returns:
    for two indexes that differ only in their threshold, a query raises
    [AssertionError] on both or on neither, [ZeroDivisionError] on both or on
    neither, and when both calls return they return the same ranking. *)
Theorem most_similar_same_for_threshold
  (intersection : LevenshteinAutomaton -> Trie -> list (Z * string))
  (dictionary : list string) (alpha beta threshold threshold' : R)
  (max_distance : Z) (t1 : string) (topn : Z) :
  let self :=
    LevenshteinSimilarityIndex_init dictionary alpha beta threshold max_distance in
  let self' :=
    LevenshteinSimilarityIndex_init dictionary alpha beta threshold' max_distance in
  (most_similar intersection self t1 topn = Raises AssertionError <->
   most_similar intersection self' t1 topn = Raises AssertionError) /\
  (most_similar intersection self t1 topn = Raises ZeroDivisionError <->
   most_similar intersection self' t1 topn = Raises ZeroDivisionError) /\
  (forall res res',
     most_similar intersection self t1 topn = Returns res ->
     most_similar intersection self' t1 topn = Returns res' -> res = res').
Proof.
  intros self self'. unfold self, self'.
  rewrite (most_similar_any_threshold intersection dictionary alpha beta
             threshold threshold' max_distance t1 topn).
  repeat split; try tauto.
  intros res res' H H'. congruence.
Qed.

Lemma most_similar_best_witness :
  exists rest,
    Permutation ([("cats", 2187 / 5120); ("bat", 32 / 135)] ++ rest)
      (scored_matches intersection_by_distance cat_index "cat") /\
    Forall (fun x : string * R => Forall (fun y => snd x >= snd y) rest)
      [("cats", 2187 / 5120); ("bat", 32 / 135)].
Proof.
  exact (most_similar_best intersection_by_distance cat_index "cat" 10 _
           cat_index_most_similar).
Defined.

Lemma cat_index_positive_matches :
  positive_matches intersection_by_distance cat_index "cat" = 2%nat.
Proof.
  unfold positive_matches. rewrite cat_index_matches. unfold match_score.
  change (alpha cat_index) with (18 / 10).
  change (beta cat_index) with 5.
  cbn [filter]. rewrite cat_cats_score, cat_bat_score. cbn [positive_score].
  destruct (Rlt_dec 0 (2187 / 5120)); [| exfalso; lra].
  destruct (Rlt_dec 0 (32 / 135)); [| exfalso; lra].
  reflexivity.
Qed.

Lemma most_similar_complete_witness :
  Permutation [("cats", 2187 / 5120); ("bat", 32 / 135)]
    (scored_matches intersection_by_distance cat_index "cat").
Proof.
  apply (most_similar_complete intersection_by_distance cat_index "cat" 10).
  - rewrite cat_index_positive_matches. lia.
  - exact cat_index_most_similar.
Defined.

Lemma most_similar_stable_witness :
  exists rest,
    (with_score (32 / 135) [("cats", 2187 / 5120); ("bat", 32 / 135)] ++ rest)%list
    = with_score (32 / 135)
        (scored_matches intersection_by_distance cat_index "cat").
Proof.
  exact (most_similar_stable intersection_by_distance cat_index "cat" 10 _
           (32 / 135) cat_index_most_similar).
Defined.



(** * Properties of setup.py *)

(** ** Paths and the file system *)

Lemma split_last_join (p d b : string) :
  split_last p = Some (d, b) -> p = path_join d b.
Proof.
  unfold path_join. revert d b. induction p as [| c p IH]; intros d b H;
    [discriminate |].
  simpl in H. destruct (split_last p) as [[d' b'] |].
  - inversion H; subst. simpl. f_equal. now apply IH.
  - destruct (Ascii.eqb_spec c "/"%char); [| discriminate].
    inversion H; subst. reflexivity.
Qed.

Lemma filter_filter {A : Type} (f g : A -> bool) (l : list A) :
  filter f (filter g l) = filter (fun x => g x && f x) l.
Proof.
  induction l as [| x l IH]; simpl; [reflexivity |].
  destruct (g x); simpl; [destruct (f x) |]; now rewrite IH.
Qed.

Lemma filter_all {A : Type} (f : A -> bool) (l : list A) :
  existsb (fun x => negb (f x)) l = false -> filter f l = l.
Proof.
  induction l as [| x l IH]; simpl; [reflexivity |].
  destruct (f x); simpl; [| discriminate]. intros H. now rewrite IH.
Qed.

Lemma isfile_false_iff (fs : filesystem) (p : string) :
  isfile fs p = false <-> ~ In p fs.
Proof.
  unfold isfile. split.
  - intros H Hin. assert (E : existsb (String.eqb p) fs = true).
    { apply existsb_exists. exists p. split; [assumption | apply String.eqb_refl]. }
    congruence.
  - intros H. destruct (existsb (String.eqb p) fs) eqn:E; [| reflexivity].
    apply existsb_exists in E as (q & Hq & Heq).
    apply String.eqb_eq in Heq. subst. contradiction.
Qed.

Lemma unlink_all (targets : list string) (fs : filesystem) :
  fold_left (fun fs f => unlink f fs) targets fs
  = filter (fun q => negb (existsb (fun t => String.eqb t q) targets)) fs.
Proof.
  revert fs. induction targets as [| t targets IH]; intros fs; simpl.
  - symmetry. apply filter_all. induction fs; simpl; auto.
  - rewrite IH. unfold unlink. rewrite filter_filter.
    apply filter_ext. intros q. now rewrite negb_orb.
Qed.

Lemma clean_directories (entries : list (string * list string))
  (fs : filesystem) :
  fold_left clean_directory entries fs
  = filter
      (fun q => negb (existsb (fun t => String.eqb t q) (clean_targets entries)))
      fs.
Proof.
  revert fs. induction entries as [| [root files] entries IH]; intros fs; simpl.
  - symmetry. apply filter_all. induction fs; simpl; auto.
  - rewrite IH. unfold clean_directory.
    change (filter _ files) with (filter generated_name files).
    rewrite unlink_all, filter_filter.
    apply filter_ext. intros q. now rewrite existsb_app, negb_orb.
Qed.

(** Among the files there are, the loop unlinks the generated ones. *)
Lemma clean_targets_generated (fs : filesystem) (q : string) :
  In q fs ->
  existsb (fun t => String.eqb t q) (clean_targets (os_walk fs "gensim"))
  = generated q.
Proof.
  intros Hq. apply Bool.eq_iff_eq_true. rewrite existsb_exists. split.
  - intros (t & Ht & Heq). apply String.eqb_eq in Heq. subst t.
    unfold clean_targets in Ht. apply in_flat_map in Ht as ([root files] & He & Ht).
    apply in_map_iff in Ht as (f & <- & Hf).
    apply filter_In in Hf as [Hf Hgen].
    unfold os_walk in He. apply in_map_iff in He as (root' & Heq & Hroot).
    inversion Heq; subst root' files. clear Heq.
    apply nodup_In, in_flat_map in Hroot as (p' & _ & Hroot).
    unfold files_in in Hf. apply in_flat_map in Hf as (p & Hp & Hf).
    destruct (split_last p) as [[d b] |] eqn:Hsplit; [| contradiction].
    destruct (String.eqb_spec d root); [| contradiction].
    destruct Hf as [<- | []]. subst d.
    rewrite <- (split_last_join _ _ _ Hsplit).
    unfold generated. rewrite Hsplit, Hgen.
    destruct (split_last p') as [[d' b'] |]; [| contradiction].
    destruct (String.eqb d' "gensim" || under "gensim" d') eqn:Hd;
      [| contradiction].
    destruct Hroot as [<- | []]. now rewrite Hd.
  - intros Hgen. exists q. split; [| apply String.eqb_refl].
    unfold generated in Hgen.
    destruct (split_last q) as [[d b] |] eqn:Hsplit; [| discriminate].
    apply andb_true_iff in Hgen as [Hd Hb].
    unfold clean_targets. apply in_flat_map.
    exists (d, files_in fs d). split.
    + unfold os_walk. apply in_map_iff. exists d. split; [reflexivity |].
      apply nodup_In, in_flat_map. exists q. split; [assumption |].
      rewrite Hsplit, Hd. now left.
    + rewrite (split_last_join _ _ _ Hsplit). apply in_map.
      apply filter_In. split; [| assumption].
      unfold files_in. apply in_flat_map. exists q. split; [assumption |].
      rewrite Hsplit, String.eqb_refl. now left.
Qed.

Lemma rmtree_if_isdir (fs : filesystem) (d : string) :
  (if isdir fs d then rmtree d fs else fs) = rmtree d fs.
Proof.
  unfold isdir, rmtree. destruct (existsb (under d) fs) eqn:E; [reflexivity |].
  symmetry. apply filter_all. rewrite <- E. clear E.
  induction fs as [| q fs IH]; simpl; [reflexivity |].
  now rewrite negb_involutive, IH.
Qed.

Lemma CleanExt_run_filter (fs : filesystem) :
  CleanExt_run fs
  = filter (fun p => negb (generated p) && negb (under "build" p)) fs.
Proof.
  unfold CleanExt_run. rewrite rmtree_if_isdir, clean_directories.
  unfold rmtree. rewrite filter_filter.
  apply filter_ext_in. intros q Hq. now rewrite clean_targets_generated.
Qed.

Lemma generated_is_removed (fs : filesystem) (p : string) :
  generated p = true -> isfile (CleanExt_run fs) p = false.
Proof.
  intros Hgen. apply isfile_false_iff. rewrite CleanExt_run_filter.
  intros Hin. apply filter_In in Hin as [_ H]. rewrite Hgen in H. discriminate.
Qed.

Lemma extension_sources (system : string) :
  flat_map ext_sources (ext_modules system)
  = (map snd c_extensions ++ map snd cpp_extensions)%list.
Proof. reflexivity. Qed.

(** ** need_cython, the extensions and clean_ext *)

(** [clean_ext] removes exactly the files in the directory gensim, or in a
    directory below it, whose name has the extension .c, .cpp or .so, and
    every file below the directory build; all other files stay, in their
    order. *)
Theorem CleanExt_run_removes (fs : filesystem) :
  CleanExt_run fs
  = filter (fun p => negb (generated p) && negb (under "build" p)) fs.
Proof. apply CleanExt_run_filter. Qed.

(** Running [clean_ext] a second time changes nothing. *)
Theorem CleanExt_run_idempotent (fs : filesystem) :
  CleanExt_run (CleanExt_run fs) = CleanExt_run fs.
Proof.
  rewrite !CleanExt_run_filter, filter_filter.
  apply filter_ext. intros p. now rewrite andb_diag.
Qed.

(** [need_cython()] is true exactly when the source of some extension
    module of [ext_modules] is not an existing file, on every platform. *)
Theorem need_cython_iff_source_missing (fs : filesystem) (system : string) :
  need_cython fs = true <->
  exists e src,
    In e (ext_modules system) /\ In src (ext_sources e) /\ isfile fs src = false.
Proof.
  unfold need_cython. rewrite <- (extension_sources system), existsb_exists.
  split.
  - intros (src & Hin & Hf). apply in_flat_map in Hin as (e & He & Hsrc).
    exists e, src. repeat split; try assumption.
    now apply negb_true_iff.
  - intros (e & src & He & Hsrc & Hf). exists src. split.
    + apply in_flat_map. eauto.
    + now apply negb_true_iff.
Qed.

(** After [clean_ext] no source of an extension module is left, on every
    platform and whatever the files were, so [need_cython()] is true and
    the next build translates the extensions with Cython again. *)
Theorem clean_then_need_cython (fs : filesystem) (system : string) :
  need_cython (CleanExt_run fs) = true /\
  Forall
    (fun e => Forall (fun src => isfile (CleanExt_run fs) src = false)
                (ext_sources e))
    (ext_modules system).
Proof.
  split.
  - unfold need_cython. cbn [map c_extensions cpp_extensions snd app existsb].
    rewrite (generated_is_removed fs "gensim/models/word2vec_inner.c")
      by reflexivity.
    reflexivity.
  - unfold ext_modules, make_c_ext, make_cpp_ext.
    cbn [map c_extensions cpp_extensions app].
    repeat constructor; cbn [ext_sources]; apply generated_is_removed;
      reflexivity.
Qed.

(** With [use_cython=True] the extensions are those of [ext_modules] with
    each source replaced by the .pyx file of the same stem: the module
    names, languages and flags are the same, on every platform. *)
Theorem cython_extensions_are_pyx_siblings (system : string) :
  Forall2
    (fun e e' =>
       ext_name e = ext_name e' /\
       ext_language e = ext_language e' /\
       ext_extra_compile_args e = ext_extra_compile_args e' /\
       ext_extra_link_args e = ext_extra_link_args e' /\
       exists src src',
         ext_sources e = [src] /\ ext_sources e' = [src'] /\
         fst (splitext src) = fst (splitext src') /\
         snd (splitext src) = ".pyx")
    (make_c_ext true ++ make_cpp_ext system true)%list
    (ext_modules system).
Proof.
  unfold ext_modules, make_c_ext, make_cpp_ext.
  cbn [map c_extensions cpp_extensions app].
  repeat constructor; cbn; eexists; eexists; repeat split; reflexivity.
Qed.
